(** * Conway's Game of Life: the grid engine of [src/cell.c]

    A shallow embedding of the body/cell data model, the three seeding
    modes, the generation step and the pattern export of [cell.c], and the
    properties of the specification proved (or refuted) against it. *)

From Stdlib Require Import ZArith Lia Ascii String.
From stdpp Require Import base option list list_numbers gmap.

Local Open Scope Z_scope.

(** ** Machine integers

    [int] is 32 bits, [size_t] 64 bits (LP64).  Values live in [Z]; the
    conversions the C code performs are written out. *)

Definition INT_MAX : Z := 2147483647.

(** Conversion to [int] (two's complement wrap). *)
Definition to_int (z : Z) : Z := (z + 2 ^ 31) mod 2 ^ 32 - 2 ^ 31.

(** Conversion to, and arithmetic in, [size_t]. *)
Definition to_size_t (z : Z) : Z := z mod 2 ^ 64.

(** ** Memory

    A [body_t] holds [rows], [cols] and an array [cells] of pointers to
    cells.  Every pointer stored by [body_init] comes from its own call of
    [cell_init], so no two slots share a cell and a slot is modelled by the
    [alive] flag of the cell it points to ([rect] is render geometry).  A
    slot that was never assigned holds an indeterminate pointer: [None].
    [cell.h] is not among the sources: [rows] and [cols] have the type of
    [body_init]'s parameters, [size_t], and [alive] holds 0 or 1. *)

Record body_t := Body { rows : Z; cols : Z; cells : list (option bool) }.

Definition set_cells (b : body_t) (cs : list (option bool)) : body_t :=
  {| rows := rows b; cols := cols b; cells := cs |}.

(** Bodies live in a store addressed by pointers, so that a caller may pass
    the same body twice. *)
Definition ptr := nat.
Abbreviation heap := (gmap ptr body_t).

(** The simulation state the functions of [cell.c] act on: the bodies and
    the population counter behind [int *pop]. *)
Record state := State { mem : heap; pop : Z }.

(** Undefined behaviour (a read or write outside the array, through an
    indeterminate pointer, an unrepresentable conversion) is [None]. *)

(** [body->cells[i]->alive] as an rvalue. *)
Definition load (p : ptr) (i : Z) (m : heap) : option bool :=
  b ← m !! p;
  if decide (0 ≤ i) then mjoin (cells b !! Z.to_nat i) else None.

(** [body->cells[i]->alive = v]. *)
Definition store (p : ptr) (i : Z) (v : bool) (m : heap) : option heap :=
  b ← m !! p;
  _ ← load p i m;
  Some (<[p := set_cells b (<[Z.to_nat i := Some v]> (cells b))]> m).

(** ** Loops *)

(** [for_each f l s] runs the loop body [f] on the elements of [l] in
    order, threading the state and stopping at the first failure. *)
Fixpoint for_each {A S : Type} (f : A → S → option S) (l : list A) (s : S)
  : option S :=
  match l with
  | [] => Some s
  | a :: l' => s' ← f a s; for_each f l' s'
  end.

(** [for (i = lo; i < hi; i++)].  Loop counters and the population counter
    are not wrapped: on the bodies considered below ([wf_body]) they stay
    within [int]. *)
Definition range (lo hi : Z) : list Z := seqZ lo (hi - lo).

(** ** compute_generation *)

(** The guard of line 328: [!(x+a < 0 || x+a > cols-1 || y+b < 0 || y+b > rows-1)].
    The comparisons with [cols - 1] and [rows - 1] are unsigned. *)
Definition in_body (bo : body_t) (x a y b : Z) : bool :=
  negb ((x + a <? 0)
        || (to_size_t (cols bo - 1) <? to_size_t (x + a))
        || (y + b <? 0)
        || (to_size_t (rows bo - 1) <? to_size_t (y + b))).

(** One pass of the innermost loop body (lines 328-330). *)
Definition add_neighbor (old : ptr) (m : heap) (x y a b : Z) (n : Z) : option Z :=
  bo ← m !! old;
  if in_body bo x a y b then
    v ← load old (to_size_t ((x + a) * cols bo + (y + b))) m;
    Some (n + Z.b2z v)
  else Some n.

(** Lines 323-332: the value of [neighbors] after the two inner loops. *)
Definition neighbors (old : ptr) (m : heap) (x y : Z) : option Z :=
  bo ← m !! old;
  let i := to_int (to_size_t (x * cols bo + y)) in
  c ← load old i m;
  for_each (λ a : Z, for_each (λ b : Z, add_neighbor old m x y a b) (range (-1) 2))
           (range (-1) 2) (if (c : bool) then -1 else 0).

(** The transition rule of lines 334-339. *)
Definition rule (c : bool) (n : Z) : bool :=
  if c && ((n <? 2) || (3 <? n)) then false
  else if negb c && (n =? 3) then true
  else c.

(** The body of the [y] loop (lines 323-341). *)
Definition generation_cell (new old : ptr) (x y : Z) (s : state) : option state :=
  bo ← mem s !! old;
  let i := to_int (to_size_t (x * cols bo + y)) in
  n ← neighbors old (mem s) x y;
  c ← load old i (mem s);
  m' ← store new i (rule c n) (mem s);
  v ← load new i m';
  Some (State m' (pop s + Z.b2z v)).

Definition compute_generation (body_new body_old : ptr) (s : state) : option state :=
  bo ← mem s !! body_old;
  for_each (λ x : Z, for_each (λ y : Z, generation_cell body_new body_old x y)
                          (range 0 (rows bo)))
           (range 0 (cols bo)) (State (mem s) 0).

(** ** Doubles

    [random_mode] and [pattern_mode] scale a dimension by 0.25, 0.5 or 0.75
    in [double] and convert back to [size_t].  A non-negative binary64 value
    with at most two fractional bits is represented by the number of quarters
    it holds; [round] is rounding to nearest, ties to even, at 53 significant
    bits. *)
Module Double.

Definition round (n : Z) : Z :=
  if n <? 2 ^ 53 then n
  else
    let s := Z.log2 n - 52 in
    let q := n / 2 ^ s in
    let r := n mod 2 ^ s in
    let h := 2 ^ (s - 1) in
    if (h <? r) || ((r =? h) && Z.odd q) then (q + 1) * 2 ^ s else q * 2 ^ s.

(** [(double)u] for an unsigned [u]. *)
Definition of_size_t (u : Z) : Z := round (4 * u).

(** [d * (k/4)] for an integral [d] and [k/4] one of 0.25, 0.5, 0.75. *)
Definition scale (k : Z) (d : Z) : Z := round (k * d / 4).

Definition add (d1 d2 : Z) : Z := round (d1 + d2).

(** [(size_t)d]: truncation; undefined when the integral part does not
    fit. *)
Definition to_size_t (d : Z) : option Z :=
  if d / 4 <? 2 ^ 64 then Some (d / 4) else None.

End Double.

(** [(size_t)(n * 0.25)], [n * 0.5] and [(size_t)(n * 0.75)] for a [size_t]
    [n]. *)
Definition quarter (n : Z) : option Z :=
  Double.to_size_t (Double.scale 1 (Double.of_size_t n)).
Definition half (n : Z) : Z := Double.scale 2 (Double.of_size_t n).
Definition three_quarters (n : Z) : option Z :=
  Double.to_size_t (Double.scale 3 (Double.of_size_t n)).

(** ** body_init *)

(** Lines 65-67: [cells[x * cols + y] = cell_init(...)], a cell with
    [alive = 0].  Writing past the allocated array is undefined. *)
Definition init_slot (cols : Z) (x y : Z) (cs : list (option bool))
  : option (list (option bool)) :=
  let i := to_size_t (x * cols + y) in
  if decide (Z.to_nat i < length cs)%nat
  then Some (<[Z.to_nat i := Some false]> cs) else None.

(** The allocation is assumed to succeed (on failure the process exits);
    pointers are 8 bytes wide. *)
Definition body_init (rows cols : Z) : option body_t :=
  let len := to_size_t (to_size_t (rows * cols) * 8) / 8 in
  cs ← for_each (λ x : Z, for_each (λ y : Z, init_slot cols x y) (range 0 rows))
                (range 0 cols) (replicate (Z.to_nat len) None);
  Some (Body rows cols cs).

(** ** random_mode *)

Section random_mode.

(** [rand k] is the value of the [k]-th call of [rand()]; [alive_prob] is
    [cell_meta.alive_prob]. *)
Variable rand : nat → Z.
Variable alive_prob : Z.

(** Lines 166-167; the second component of the state counts the calls of
    [rand()]. *)
Definition random_cell (body : ptr) (x y : Z) (sk : state * nat)
  : option (state * nat) :=
  let '(s, k) := sk in
  bo ← mem s !! body;
  let i := to_size_t (x * cols bo + y) in
  m' ← store body i (Z.rem (rand k) 100 + 1 <=? alive_prob) (mem s);
  v ← load body i m';
  Some (State m' (pop s + Z.b2z v), S k).

(** Returns [body] (never NULL). *)
Definition random_mode (body : ptr) (sk : state * nat) : option (state * nat) :=
  bo ← mem sk.1 !! body;
  x0 ← quarter (cols bo); x1 ← three_quarters (cols bo);
  y0 ← quarter (rows bo); y1 ← three_quarters (rows bo);
  for_each (λ x : Z, for_each (λ y : Z, random_cell body x y) (range y0 y1))
           (range x0 x1) sk.

End random_mode.

(** ** Text: the parts of libc the pattern files go through *)

Definition newline : ascii := ascii_of_nat 10.
Definition comma : ascii := ascii_of_nat 44.

(** [isspace] in the C locale. *)
Definition isspace (c : ascii) : bool :=
  let n := nat_of_ascii c in
  (n =? 32)%nat || ((9 <=? n)%nat && (n <=? 13)%nat).

Definition digit_val (c : ascii) : option Z :=
  let n := nat_of_ascii c in
  if (48 <=? n)%nat && (n <=? 57)%nat then Some (Z.of_nat n - 48) else None.

Fixpoint skip_space (s : string) : string :=
  match s with
  | String c s' => if isspace c then skip_space s' else s
  | EmptyString => s
  end.

Fixpoint atoi_digits (acc : Z) (s : string) : Z :=
  match s with
  | String c s' =>
      match digit_val c with
      | Some d => atoi_digits (10 * acc + d) s'
      | None => acc
      end
  | EmptyString => acc
  end.

(** [atoi]: optional white space, optional sign, the longest run of
    digits.  A value outside [int] is undefined, and so is [atoi(NULL)],
    which the callers below reach through [strtok]. *)
Definition atoi (s : string) : option Z :=
  let s1 := skip_space s in
  let '(neg, s2) :=
    match s1 with
    | String c s' =>
        if Ascii.eqb c "-"%char then (true, s')
        else if Ascii.eqb c "+"%char then (false, s') else (false, s1)
    | EmptyString => (false, s1)
    end in
  let v := atoi_digits 0 s2 in
  let r := if neg then - v else v in
  if (- INT_MAX - 1 <=? r) && (r <=? INT_MAX) then Some r else None.

(** [strtok] with the single delimiter [d]: the next token and the rest of
    the string behind the delimiter that ended it, or [None] for NULL. *)
Fixpoint skip_delim (d : ascii) (s : string) : string :=
  match s with
  | String c s' => if Ascii.eqb c d then skip_delim d s' else s
  | EmptyString => s
  end.

Fixpoint span_token (d : ascii) (s : string) : string * string :=
  match s with
  | String c s' =>
      if Ascii.eqb c d then (EmptyString, s')
      else let '(t, r) := span_token d s' in (String c t, r)
  | EmptyString => (EmptyString, EmptyString)
  end.

Definition strtok (d : ascii) (s : string) : option (string * string) :=
  match skip_delim d s with
  | EmptyString => None
  | s1 => Some (span_token d s1)
  end.

(** [point[strlen(point) - 1] = '\0']. *)
Fixpoint chop (s : string) : option string :=
  match s with
  | EmptyString => None
  | String c EmptyString => Some EmptyString
  | String c s' => String c <$> chop s'
  end.

(** [printf("%d", z)]. *)
Fixpoint digits_of (fuel : nat) (n : Z) (acc : string) : string :=
  match fuel with
  | O => acc
  | S fuel' =>
      let acc' := String (ascii_of_nat (48 + Z.to_nat (n mod 10))) acc in
      if n / 10 =? 0 then acc' else digits_of fuel' (n / 10) acc'
  end.

Definition print_int (z : Z) : string :=
  if z <? 0 then String "-"%char (digits_of 10 (- z) EmptyString)
  else digits_of 10 z EmptyString.

(** A text file is the list of its lines, each with its terminator, as
    [getline] returns them and as one [fprintf] of [export_body] writes
    them. *)
Definition file := list string.

(** ** pattern_mode *)

(** Lines 203-204: [(size_t)atoi(tok) + dim * 0.5], converted to [size_t]. *)
Definition offset_coord (tok : string) (dim : Z) : option Z :=
  a ← atoi tok;
  Double.to_size_t (Double.add (Double.of_size_t (to_size_t a)) (half dim)).

(** The body of the [while] loop (lines 202-206). *)
Definition pattern_line (body : ptr) (point : string) (s : state) : option state :=
  bo ← mem s !! body;
  p ← chop point;
  '(t1, rest) ← strtok comma p;
  x ← offset_coord t1 (cols bo);
  '(t2, _) ← strtok comma rest;
  y ← offset_coord t2 (rows bo);
  m' ← store body (to_size_t (x * cols bo + y)) true (mem s);
  Some (State m' (pop s + 1)).

(** The file the user's choice names is [pattern_file]: [None] when
    [fopen] fails.  The result is the pointer returned ([None] for NULL)
    and the state. *)
Definition pattern_mode (pattern_file : option file) (body : ptr) (s : state)
  : option (option ptr * state) :=
  match pattern_file with
  | None => Some (None, s)
  | Some lines =>
      s' ← for_each (pattern_line body) (tail lines) s;
      Some (Some body, s')
  end.

(** ** drawing_mode *)

(** The events [SDL_PollEvent] delivers, as far as the [switch] tells them
    apart; a mouse-button event carries what [SDL_GetMouseState] reports. *)
Inductive event :=
| EvQuit
| EvKeySpace
| EvKeyQ
| EvKeyOther
| EvMouseLeft (mx my : Z)
| EvMouseOther
| EvOther.

(** Lines 263-266 for the cell coordinates [x], [y]. *)
Definition toggle (body : ptr) (x y : Z) (s : state) : option state :=
  bo ← mem s !! body;
  let i := to_int (to_size_t (x * cols bo + y)) in
  c ← load body i (mem s);
  m' ← store body i (negb c) (mem s);
  v ← load body i m';
  Some (State m' (pop s + (2 * Z.b2z v - 1))).

Section drawing_mode.

(** [cell_meta.width] and [cell_meta.height], taken to be [int]s. *)
Variables width height : Z.

(** Lines 260-266; dividing by zero is undefined. *)
Definition click (body : ptr) (mx my : Z) (s : state) : option state :=
  if decide (width = 0 ∨ height = 0) then None
  else toggle body (Z.quot mx width) (Z.quot my height) s.

(** What one drain of the event queue leads to. *)
Inductive drained :=
| Stopped (s : state)
| Polled (capturing_input : bool) (s : state).

(** The inner [while (SDL_PollEvent(&event))] on the events queued at
    that moment. *)
Fixpoint drain (body : ptr) (evs : list event) (capturing_input : bool)
    (s : state) : option drained :=
  match evs with
  | [] => Some (Polled capturing_input s)
  | EvQuit :: _ | EvKeyQ :: _ => Some (Stopped s)
  | EvKeySpace :: evs' => drain body evs' false s
  | EvMouseLeft mx my :: evs' =>
      s' ← click body mx my s; drain body evs' capturing_input s'
  | _ :: evs' => drain body evs' capturing_input s
  end.

(** The outer loop over the successive contents of the event queue, as
    far as the bodies and the population counter go.  When the input ends
    before the space key the function never returns: no result.

    The state has neither the screen nor [cell_meta]: left out are
    [cell_meta.grid_on], which line 234 sets to 1 and line 278 restores
    (so it stays 1 when NULL is returned at lines 248 and 255), and the
    rendering of lines 236-240 and 268-272, whose [draw_generation] stores
    the rectangle of every cell of [body] (see [draw_cell]) and reads the
    alive flags.  None of them reads or writes an alive flag or [*pop]. *)
Fixpoint drawing_mode (body : ptr) (queue : list (list event)) (s : state)
  : option (option ptr * state) :=
  match queue with
  | [] => None
  | evs :: queue' =>
      d ← drain body evs true s;
      match d with
      | Stopped s' => Some (None, s')
      | Polled true s' => drawing_mode body queue' s'
      | Polled false s' => Some (Some body, s')
      end
  end.

End drawing_mode.

(** ** export_body *)

(** Line 379: ["%d,%d\n"]. *)
Definition export_line (x y : Z) : string :=
  (print_int x ++ String comma (print_int y ++ String newline EmptyString))%string.

(** Lines 378-379. *)
Definition export_cell (body : ptr) (m : heap) (x y : Z) (out : file) : option file :=
  bo ← m !! body;
  c ← load body (to_size_t (x * cols bo + y)) m;
  Some (if (c : bool) then out ++ [export_line x y] else out).

(** The contents of the export file, [None] inside when [fopen] fails
    ([writable] false). *)
Definition export_body (writable : bool) (body : ptr) (m : heap)
  : option (option file) :=
  if writable then
    bo ← m !! body;
    out ← for_each (λ x : Z, for_each (λ y : Z, export_cell body m x y) (range 0 (rows bo)))
                   (range 0 (cols bo)) [("x,y" ++ String newline EmptyString)%string];
    Some (Some out)
  else Some None.

(** ** inital_generation *)

(** What the seeding modes read from outside [cell.c]. *)
Record seed_env := SeedEnv {
  mode : ascii;
  cell_alive_prob : Z;
  rand_values : nat → Z;
  chosen_pattern : option file;
  cell_width : Z;
  cell_height : Z;
  sdl_events : list (list event)
}.

Definition inital_generation (e : seed_env) (body : ptr) (s : state)
  : option (option ptr * state) :=
  let s0 := State (mem s) 0 in
  if Ascii.eqb (mode e) "r"%char then
    sk ← random_mode (rand_values e) (cell_alive_prob e) body (s0, 0%nat);
    Some (Some body, sk.1)
  else if Ascii.eqb (mode e) "p"%char then
    pattern_mode (chosen_pattern e) body s0
  else if Ascii.eqb (mode e) "d"%char then
    drawing_mode (cell_width e) (cell_height e) body (sdl_events e) s0
  else Some (None, s0).

(** ** body_destory *)

(** The calls of [free] [body_destory] makes: of the cell a slot of the
    array points to (line 97, through [cell_destroy]), of the array
    (line 98), of the body (line 99). *)
Inductive free_call :=
| FreeCell (slot : nat)
| FreeCells
| FreeBody.

(** Lines 95-97: [cell_destroy(body->cells[x * body->cols + y])], that is
    [free] of the cell the slot points to.  The pointer left in the slot
    dangles: [None].  Freeing through an indeterminate or dangling pointer
    is undefined.  The loops thread the array and the calls made so far. *)
Definition destroy_slot (cols : Z) (x y : Z)
    (st : list (option bool) * list free_call)
  : option (list (option bool) * list free_call) :=
  let i := to_size_t (x * cols + y) in
  match st.1 !! Z.to_nat i with
  | Some (Some _) => Some (<[Z.to_nat i := None]> st.1, st.2 ++ [FreeCell (Z.to_nat i)])
  | _ => None
  end.

(** After the loops, [free(body->cells)] and [free(body)].  The result is
    the calls of [free] in order and the store without the body. *)
Definition body_destory (body : ptr) (m : heap) : option (list free_call * heap) :=
  bo ← m !! body;
  st ← for_each (λ x : Z, for_each (λ y : Z, destroy_slot (cols bo) x y) (range 0 (rows bo)))
                (range 0 (cols bo)) (cells bo, []);
  Some (st.2 ++ [FreeCells; FreeBody], delete body m).

(** ** draw_cell and draw_generation

    The renderer is outside [cell.c]; what the two functions ask of it is
    the list of their SDL calls.  [draw_cell] also stores the rectangle in
    the cell, and reads it nowhere but in the calls it makes right after, so
    the cells of the model need not hold it. *)
Record SDL_Rect := Rect { rect_x : Z; rect_y : Z; rect_w : Z; rect_h : Z }.

(** The colours of [cell_meta], of [bg_meta], and the grey (215, 215, 215)
    of the grid lines. *)
Inductive draw_color := CellColor | BackgroundColor | GridColor.

Inductive render_op :=
| SetRenderDrawColor (c : draw_color)
| RenderFillRect (r : SDL_Rect)
| RenderDrawRect (r : SDL_Rect).

Section draw.

(** [cell_meta.width], [cell_meta.height] and [cell_meta.grid_on]; the
    products of lines 114-115 are taken not to overflow. *)
Variables width height : Z.
Variable grid_on : bool.

(** Lines 114-129, for a cell with the given [alive] flag. *)
Definition draw_cell (alive : bool) (x y : Z) : list render_op :=
  let r := Rect (width * x) (height * y) width height in
  [SetRenderDrawColor (if alive then CellColor else BackgroundColor);
   RenderFillRect r]
  ++ (if grid_on then [SetRenderDrawColor GridColor; RenderDrawRect r] else []).

(** Line 146; the [size_t] counters are passed as [int]s. *)
Definition draw_position (body : ptr) (m : heap) (x y : Z) (out : list render_op)
  : option (list render_op) :=
  bo ← m !! body;
  c ← load body (to_size_t (x * cols bo + y)) m;
  Some (out ++ draw_cell c (to_int x) (to_int y)).

Definition draw_generation (body : ptr) (m : heap) : option (list render_op) :=
  bo ← m !! body;
  for_each (λ x : Z, for_each (λ y : Z, draw_position body m x y) (range 0 (rows bo)))
           (range 0 (cols bo)) [].

End draw.

(** * Properties *)

(** ** Grids in the terms of the specification *)

(** The storage offset of position [(x, y)]. *)
Definition idx (b : body_t) (x y : Z) : Z := x * cols b + y.

Definition in_grid (b : body_t) (x y : Z) : bool :=
  (0 <=? x) && (x <? cols b) && (0 <=? y) && (y <? rows b).

(** The cell at position [(x, y)], when the slot holds one. *)
Definition cell_at (b : body_t) (x y : Z) : option bool :=
  mjoin (cells b !! Z.to_nat (idx b x y)).

(** Position [(x, y)] lies in the grid and its cell is alive. *)
Definition alive_at (b : body_t) (x y : Z) : bool :=
  in_grid b x y && bool_decide (cell_at b x y = Some true).

(** Well-formed bodies: the dimensions and the number of cells fit [int],
    the array has [rows * cols] slots, and every position of the grid
    addresses a slot that holds a cell. *)
Definition wf_body (b : body_t) : bool :=
  (0 <=? rows b) && (0 <=? cols b)
  && (rows b <=? INT_MAX) && (cols b <=? INT_MAX)
  && (rows b * cols b <=? INT_MAX)
  && bool_decide (length (cells b) = Z.to_nat (rows b * cols b))
  && forallb (λ x, forallb (λ y, bool_decide (is_Some (cell_at b x y)))
                           (range 0 (rows b)))
             (range 0 (cols b)).

(** The positions of a grid in the order the loops visit them. *)
Definition grid (rows cols : Z) : list (Z * Z) :=
  x ← range 0 cols; y ← range 0 rows; [(x, y)].
Definition positions (b : body_t) : list (Z * Z) := grid (rows b) (cols b).

(** The eight offsets around a cell. *)
Definition around : list (Z * Z) :=
  [(-1, -1); (-1, 0); (-1, 1); (0, -1); (0, 1); (1, -1); (1, 0); (1, 1)].

(** The neighbor count in the words of the specification: the alive cells
    among the positions [(x + a, y + b)] around [(x, y)] that lie in the
    grid. *)
Definition alive_neighbors (b : body_t) (x y : Z) : Z :=
  Z.of_nat (length (List.filter (λ ab, alive_at b (x + ab.1) (y + ab.2)) around)).

(** The state the rule gives position [(x, y)] in the next generation. *)
Definition next_alive (b : body_t) (x y : Z) : bool :=
  rule (alive_at b x y) (alive_neighbors b x y).

(** The number of alive cells a body holds. *)
Definition population (b : body_t) : Z :=
  Z.of_nat (length (List.filter (λ c, bool_decide (c = Some true)) (cells b))).

(** Every cell of the grid is alive. *)
Definition all_alive (b : body_t) : bool :=
  forallb (λ p, alive_at b p.1 p.2) (positions b).

(** Position [(x, y)] lies on the border of the grid, and is one of its
    four corners. *)
Definition on_edge (b : body_t) (x y : Z) : bool :=
  (x =? 0) || (x =? cols b - 1) || (y =? 0) || (y =? rows b - 1).
Definition is_corner (b : body_t) (x y : Z) : bool :=
  ((x =? 0) || (x =? cols b - 1)) && ((y =? 0) || (y =? rows b - 1)).

(** The array after the assignments [cells[i]->alive = v] for the pairs
    [(i, v)] of [ws], in order. *)
Definition assign_all (cs : list (option bool)) (ws : list (nat * bool))
  : list (option bool) :=
  foldl (λ cs w, <[w.1 := Some w.2]> cs) cs ws.

(** The assignments [compute_generation] makes to the next generation when
    its loops visit the positions [ps]. *)
Definition generation_writes (bo : body_t) (ps : list (Z * Z)) : list (nat * bool) :=
  (λ p, (Z.to_nat (idx bo p.1 p.2), next_alive bo p.1 p.2)) <$> ps.

Definition write_next (bo : body_t) (cs : list (option bool)) (ps : list (Z * Z))
  : list (option bool) :=
  assign_all cs (generation_writes bo ps).

(** The number of visits among [ps] that wrote an alive cell. *)
Definition written_alive (bo : body_t) (ps : list (Z * Z)) : Z :=
  foldr (λ p n, Z.b2z (next_alive bo p.1 p.2) + n) 0 ps.

(** The array [cs] holds a cell at every position of the grid of [bo]. *)
Definition holds_cells (bo : body_t) (cs : list (option bool)) : Prop :=
  ∀ x y, in_grid bo x y = true → ∃ v, cs !! Z.to_nat (idx bo x y) = Some (Some v).

(** A line of a text file. *)
Definition line (s : string) : string := (s ++ String newline EmptyString)%string.

(** Strings of decimal digits. *)
Fixpoint all_digits (s : string) : bool :=
  match s with
  | EmptyString => true
  | String c s' => bool_decide (is_Some (digit_val c)) && all_digits s'
  end.

(** The number of digits [digits_of] writes. *)
Fixpoint width (fuel : nat) (n : Z) : nat :=
  match fuel with
  | O => O
  | S fuel' => if n / 10 =? 0 then 1%nat else S (width fuel' (n / 10))
  end.

(** The alive positions of a grid, in the order [export_body] lists
    them. *)
Definition alive_positions (b : body_t) : list (Z * Z) :=
  List.filter (λ p, alive_at b p.1 p.2) (positions b).

(** Every cell of the grid is dead. *)
Definition all_dead (b : body_t) : bool :=
  forallb (λ p, negb (alive_at b p.1 p.2)) (positions b).

(** The assignments [pattern_mode] makes for the offsets [qs]. *)
Definition pattern_writes (b : body_t) (qs : list (Z * Z)) : list (nat * bool) :=
  (λ q, (Z.to_nat (idx b (q.1 + cols b / 2) (q.2 + rows b / 2)), true)) <$> qs.

(** The offsets [qs] are non-negative and, moved by half the dimensions,
    name positions of the grid. *)
Definition offsets_fit (b : body_t) (qs : list (Z * Z)) : bool :=
  forallb (λ q, (0 <=? q.1) && (0 <=? q.2)
                && in_grid b (q.1 + cols b / 2) (q.2 + rows b / 2)) qs.

(** Every alive position of the grid, moved by half the dimensions, is
    still in the grid. *)
Definition shift_fits (b : body_t) : bool :=
  forallb (λ p, in_grid b (p.1 + cols b / 2) (p.2 + rows b / 2)) (alive_positions b).

(** The assignments of [body_init], and the array it builds. *)
Definition init_writes (cols : Z) (ps : list (Z * Z)) : list (nat * bool) :=
  (λ p, (Z.to_nat (p.1 * cols + p.2), false)) <$> ps.
Definition fresh_body (rows cols : Z) : body_t :=
  Body rows cols (assign_all (replicate (Z.to_nat (rows * cols)) None)
                             (init_writes cols (grid rows cols))).

(** The region [random_mode] seeds, in the order of its loops. *)
Definition region (b : body_t) : list (Z * Z) :=
  x ← range (cols b / 4) (3 * cols b / 4);
  y ← range (rows b / 4) (3 * rows b / 4); [(x, y)].

Definition in_region (b : body_t) (x y : Z) : bool :=
  (cols b / 4 <=? x) && (x <? 3 * cols b / 4)
  && (rows b / 4 <=? y) && (y <? 3 * rows b / 4).

(** The outcome of the [k]-th draw: [rand() % 100 + 1 <= alive_prob]. *)
Definition draw (rand : nat → Z) (alive_prob : Z) (k : nat) : bool :=
  Z.rem (rand k) 100 + 1 <=? alive_prob.

(** The assignments [random_mode] makes on the positions [ps] from the
    [k]-th draw on. *)
Fixpoint random_writes (rand : nat → Z) (alive_prob : Z) (b : body_t) (k : nat)
    (ps : list (Z * Z)) : list (nat * bool) :=
  match ps with
  | [] => []
  | p :: ps' =>
      (Z.to_nat (idx b p.1 p.2), draw rand alive_prob k)
        :: random_writes rand alive_prob b (S k) ps'
  end.

(** The number of assignments of an alive state. *)
Definition alive_writes (ws : list (nat * bool)) : Z :=
  foldr (λ w n, Z.b2z w.2 + n) 0 ws.

(** The population counter agrees with the body at [body]. *)
Definition counted (body : ptr) (s : state) : Prop :=
  ∃ b, mem s !! body = Some b ∧ pop s = population b.

(** What an operation on the body at [body] may change: nothing at
    other pointers and, at [body], neither the dimensions nor the length of
    the array. *)
Definition shape (b : body_t) : Z * Z * nat := (rows b, cols b, length (cells b)).
Definition frame (body : ptr) (m m' : heap) : Prop :=
  ∀ q, if decide (q = body) then shape <$> m' !! q = shape <$> m !! q
       else m' !! q = m !! q.

(** The rule of Life: born on 3 neighbors, surviving on 2 or 3. *)
Definition life (alive : bool) (n : Z) : bool :=
  (n =? 3) || (alive && (n =? 2)).

(** Events that end the drawing session ([quits]) and events that end the
    capture of input ([stops]: those, and the space key). *)
Definition quits (e : event) : bool :=
  match e with EvQuit | EvKeyQ => true | _ => false end.
Definition stops (e : event) : bool :=
  match e with EvQuit | EvKeyQ | EvKeySpace => true | _ => false end.

(** The left clicks among the events [evs], applied in order. *)
Definition click_event (width height : Z) (body : ptr) (e : event) (s : state)
  : option state :=
  match e with
  | EvMouseLeft mx my => click width height body mx my s
  | _ => Some s
  end.
Definition clicks (width height : Z) (body : ptr) (evs : list event) (s : state)
  : option state :=
  for_each (click_event width height body) evs s.

(** The string holds a comma. *)
Fixpoint has_comma (s : string) : bool :=
  match s with
  | EmptyString => false
  | String c s' => Ascii.eqb c comma || has_comma s'
  end.

(** The two numbers [pattern_mode] reads from a line (lines 202-204),
    before it adds half the dimensions. *)
Definition read_point (point : string) : option (Z * Z) :=
  p ← chop point;
  '(t1, rest) ← strtok comma p;
  a ← atoi t1;
  '(t2, _) ← strtok comma rest;
  b ← atoi t2;
  Some (a, b).

(** From [m] to [m'] the body at [body] stays, and each slot of its array
    either keeps what it holds or holds an alive cell. *)
Definition grown (body : ptr) (m m' : heap) : Prop :=
  ∀ b, m !! body = Some b →
    ∃ b', m' !! body = Some b'
          ∧ ∀ i c, cells b !! i = Some c →
              cells b' !! i = Some c ∨ cells b' !! i = Some (Some true).

(** ** Sample grids and inputs *)

(** A body of 3 rows and 2 columns as [body_init] leaves it, and one with
    the cells of positions (0,1), (1,1) and (1,2) alive. *)
Definition dead_3x2 : body_t :=
  Body 3 2 [Some false; Some false; Some false; Some false; Some false; None].
Definition prev_3x2 : body_t :=
  Body 3 2 [Some false; Some true; Some false; Some true; Some true; None].

(** Body 0 is the previous generation, body 1 receives the next one. *)
Definition gen_3x2 : state := State (<[1%nat := dead_3x2]> {[0%nat := prev_3x2]}) 0.

(** A pattern file that names the centre cell twice, and one with an
    offset to the left of the centre. *)
Definition pattern_twice : file := [line "x,y"; line "0,0"; line "0,0"].
Definition pattern_left : file := [line "x,y"; line "-1,0"].
Definition pattern_far : file := [line "x,y"; line "2,2"].

(** A pattern file whose last line has no newline. *)
Definition pattern_open : file := [line "x,y"; "0,1"%string].

(** Bodies with every cell alive: 1 x 1, and 3 rows by 1 column. *)
Definition alive_1x1 : body_t := Body 1 1 [Some true].
Definition alive_3x1 : body_t := Body 3 1 [Some true; Some true; Some true].
Definition alive_2x2 : body_t := Body 2 2 [Some true; Some true; Some true; Some true].

(** 4 x 4 bodies: all dead, only (0,0) alive, only (3,3) alive. *)
Definition dead_4x4 : body_t := Body 4 4 (replicate 16 (Some false)).
Definition corner_4x4 : body_t := Body 4 4 (Some true :: replicate 15 (Some false)).
Definition far_4x4 : body_t := Body 4 4 (replicate 15 (Some false) ++ [Some true]).

(** A store with two 4 x 4 bodies. *)
Definition store_4x4 : heap := <[1%nat := dead_4x4]> {[0%nat := corner_4x4]}.

(** Random mode with probability 50 and the draws 0, 37, 74, ... *)
Definition random_50 : seed_env :=
  SeedEnv "r" 50 (λ j, Z.of_nat j * 37) None 10 10 [].

(** Bodies of 5 rows and 2 columns as [body_init] builds them: all dead,
    and with only the cell of (0,0) alive. *)
Definition dead_5x2 : body_t :=
  Body 5 2 (replicate 7 (Some false) ++ replicate 3 None).
Definition corner_5x2 : body_t :=
  Body 5 2 (Some true :: replicate 6 (Some false) ++ replicate 3 None).

(** Export the body at 0, then seed the body at 1 from the file. *)
Definition export_import (s : state) : option (option ptr * state) :=
  f ← export_body true 0%nat (mem s);
  pattern_mode f 1%nat (State (mem s) 0).

(** What [compute_generation] leaves of [gen_3x2] when body 0 is passed for
    both generations. *)
Definition inplace_3x2 : state :=
  State (<[0%nat := Body 3 2 [Some false; Some true; Some true; Some false;
                              Some true; None]]> (mem gen_3x2)) 4.

(** Two fresh 3 x 2 bodies, and a drawing session that clicks the cells
    (0,1), (1,1) and (1,2) of cells 10 pixels wide and high. *)
Definition fresh_3x2 : state := State (<[1%nat := dead_3x2]> {[0%nat := dead_3x2]}) 0.
Definition clicks_3x2 : seed_env :=
  SeedEnv "d" 50 (λ _, 0) None 10 10
          [[EvMouseLeft 5 15; EvMouseLeft 15 15]; []; [EvMouseLeft 15 25; EvKeySpace]].

(** ** Machine arithmetic in range *)

Lemma to_size_t_small z : 0 ≤ z ≤ INT_MAX → to_size_t z = z.
Proof. intros H. unfold to_size_t, INT_MAX in *. apply Z.mod_small. lia. Qed.

Lemma to_int_small z : 0 ≤ z ≤ INT_MAX → to_int z = z.
Proof.
  intros H. unfold to_int, INT_MAX in *.
  rewrite Z.mod_small; lia.
Qed.

(** ** Loops *)

Lemma for_each_app {A S} (f : A → S → option S) l1 l2 s :
  for_each f (l1 ++ l2) s = s' ← for_each f l1 s; for_each f l2 s'.
Proof.
  revert s. induction l1 as [|a l1 IH]; intros s; simpl; [done|].
  destruct (f a s) as [s1|]; simpl; [apply IH|done].
Qed.

Lemma for_each_fmap {A B S} (g : A → B) (f : B → S → option S) l s :
  for_each f (g <$> l) s = for_each (λ a, f (g a)) l s.
Proof.
  revert s. induction l as [|a l IH]; intros s; simpl; [done|].
  destruct (f (g a) s); simpl; [apply IH|done].
Qed.

(** Two nested loops visit the pairs of their ranges in lexicographic
    order. *)
Lemma for_each_nested {S} (f : Z → Z → S → option S) (xs ys : list Z) s :
  for_each (λ x, for_each (λ y, f x y) ys) xs s
  = for_each (λ p, f p.1 p.2) (x ← xs; y ← ys; [(x, y)]) s.
Proof.
  revert s. induction xs as [|x xs IH]; intros s; simpl; [done|].
  rewrite for_each_app.
  replace (ys ≫= λ y, [(x, y)]) with ((λ y, (x, y)) <$> ys)
    by (induction ys; simpl; [done|by f_equal]).
  rewrite for_each_fmap. simpl.
  destruct (for_each _ ys s); simpl; [apply IH|done].
Qed.

Lemma elem_of_pairs (xs ys : list Z) (x y : Z) :
  (x, y) ∈ (x ← xs; y ← ys; [(x, y)]) ↔ x ∈ xs ∧ y ∈ ys.
Proof.
  rewrite list_elem_of_bind. split.
  - intros (x' & Hy & Hx). apply list_elem_of_bind in Hy as (y' & Hp & Hy).
    apply list_elem_of_singleton in Hp. by simplify_eq.
  - intros [Hx Hy]. exists x. split; [|done].
    apply list_elem_of_bind. exists y. split; [|done].
    by apply list_elem_of_singleton.
Qed.

Lemma elem_of_range lo hi k : k ∈ range lo hi ↔ lo ≤ k < hi.
Proof. unfold range. rewrite elem_of_seqZ. lia. Qed.

(** ** Well-formed bodies *)

Lemma in_grid_spec b x y :
  in_grid b x y = true ↔ 0 ≤ x < cols b ∧ 0 ≤ y < rows b.
Proof. unfold in_grid. rewrite !andb_true_iff. lia. Qed.

Lemma wf_body_dims b :
  wf_body b = true →
  0 ≤ rows b ≤ INT_MAX ∧ 0 ≤ cols b ≤ INT_MAX ∧ rows b * cols b ≤ INT_MAX
  ∧ length (cells b) = Z.to_nat (rows b * cols b).
Proof.
  unfold wf_body. rewrite !andb_true_iff, bool_decide_eq_true. lia.
Qed.

Lemma wf_body_cell b x y :
  wf_body b = true → in_grid b x y = true → is_Some (cell_at b x y).
Proof.
  unfold wf_body. rewrite !andb_true_iff, in_grid_spec.
  intros [_ Hall] [Hx Hy].
  rewrite forallb_forall in Hall.
  specialize (Hall x). rewrite <- list_elem_of_In, elem_of_range in Hall.
  specialize (Hall ltac:(lia)). rewrite forallb_forall in Hall.
  specialize (Hall y). rewrite <- list_elem_of_In, elem_of_range in Hall.
  specialize (Hall ltac:(lia)). by apply bool_decide_eq_true in Hall.
Qed.

(** The offset of a position of a well-formed body is a valid [int] and
    lies inside the array. *)
Lemma wf_body_idx b x y :
  wf_body b = true → in_grid b x y = true →
  0 ≤ idx b x y ≤ INT_MAX ∧ (Z.to_nat (idx b x y) < length (cells b))%nat.
Proof.
  intros Hwf Hin. destruct (wf_body_cell _ _ _ Hwf Hin) as [v Hv].
  destruct (wf_body_dims _ Hwf) as (Hr & Hc & Hrc & Hlen).
  apply in_grid_spec in Hin. unfold cell_at in Hv.
  destruct (cells b !! Z.to_nat (idx b x y)) as [o|] eqn:E; [|done].
  apply lookup_lt_Some in E. unfold idx in *. split; [|done]. nia.
Qed.

Lemma wf_body_intro b :
  0 ≤ rows b ≤ INT_MAX → 0 ≤ cols b ≤ INT_MAX → rows b * cols b ≤ INT_MAX →
  length (cells b) = Z.to_nat (rows b * cols b) →
  (∀ x y, in_grid b x y = true → is_Some (cell_at b x y)) →
  wf_body b = true.
Proof.
  intros Hr Hc Hrc Hlen Hall. unfold wf_body.
  rewrite !andb_true_iff, bool_decide_eq_true.
  split; [lia|]. apply forallb_forall. intros x Hx.
  apply forallb_forall. intros y Hy. apply bool_decide_eq_true, Hall.
  apply list_elem_of_In, elem_of_range in Hx, Hy.
  apply in_grid_spec. lia.
Qed.

(** Assigning the [alive] flag of a cell keeps a body well formed. *)
Lemma wf_body_insert b i v :
  wf_body b = true → wf_body (set_cells b (<[i := Some v]> (cells b))) = true.
Proof.
  intros Hwf. destruct (wf_body_dims _ Hwf) as (Hr & Hc & Hrc & Hlen).
  apply wf_body_intro; cbn [rows cols cells set_cells]; try done.
  - by rewrite length_insert.
  - intros x y Hin. destruct (wf_body_cell b x y Hwf Hin) as [w Hw].
    unfold cell_at, idx in *. cbn [cols cells set_cells].
    destruct (cells b !! Z.to_nat (x * cols b + y)) as [o|] eqn:E; [|done].
    destruct (decide (i = Z.to_nat (x * cols b + y))) as [->|Hne].
    + rewrite list_lookup_insert_eq by (by apply lookup_lt_Some in E). by eexists.
    + rewrite list_lookup_insert_ne by done. rewrite E. by eexists.
Qed.

Lemma alive_at_cell b x y v :
  in_grid b x y = true → cell_at b x y = Some v → alive_at b x y = v.
Proof.
  intros Hin Hv. unfold alive_at. rewrite Hin, Hv. simpl.
  destruct v; [by apply bool_decide_eq_true|by apply bool_decide_eq_false].
Qed.

Lemma alive_at_outside b x y : in_grid b x y = false → alive_at b x y = false.
Proof. intros H. unfold alive_at. by rewrite H. Qed.

(** ** Reading and writing cells *)

Lemma load_cell m p b x y :
  m !! p = Some b → 0 ≤ idx b x y → load p (idx b x y) m = cell_at b x y.
Proof.
  intros Hp Hi. unfold load, cell_at. rewrite Hp. simpl.
  by rewrite decide_True by done.
Qed.

(** A position of a well-formed body reads as the alive state of its
    cell. *)
Lemma load_alive m p b x y :
  m !! p = Some b → wf_body b = true → in_grid b x y = true →
  load p (idx b x y) m = Some (alive_at b x y).
Proof.
  intros Hp Hwf Hin. destruct (wf_body_idx _ _ _ Hwf Hin) as [Hi _].
  rewrite (load_cell _ _ _ _ _ Hp) by lia.
  destruct (wf_body_cell _ _ _ Hwf Hin) as [v Hv].
  by rewrite (alive_at_cell _ _ _ _ Hin Hv).
Qed.

Lemma store_cell m p b i v c :
  m !! p = Some b → 0 ≤ i → cells b !! Z.to_nat i = Some (Some c) →
  store p i v m = Some (<[p := set_cells b (<[Z.to_nat i := Some v]> (cells b))]> m).
Proof.
  intros Hp Hi Hc. unfold store, load. rewrite Hp. simpl.
  rewrite decide_True by done. by rewrite Hc.
Qed.

(** ** The neighbor count *)

Lemma in_body_spec bo x y a b :
  wf_body bo = true → in_grid bo x y = true → -1 ≤ a ≤ 1 → -1 ≤ b ≤ 1 →
  in_body bo x a y b = in_grid bo (x + a) (y + b).
Proof.
  intros Hwf Hin Ha Hb.
  destruct (wf_body_dims _ Hwf) as (Hr & Hc & _).
  apply in_grid_spec in Hin. apply eq_true_iff_eq.
  rewrite in_grid_spec. unfold in_body.
  rewrite negb_true_iff, !orb_false_iff, !Z.ltb_ge.
  rewrite (to_size_t_small (cols bo - 1)), (to_size_t_small (rows bo - 1)) by lia.
  unfold INT_MAX in *. split.
  - intros [[[H1 H2] H3] H4].
    rewrite to_size_t_small in H2, H4 by (unfold INT_MAX; lia). lia.
  - intros H. rewrite !to_size_t_small by (unfold INT_MAX; lia). lia.
Qed.

Lemma add_neighbor_alive old m bo x y a b n :
  m !! old = Some bo → wf_body bo = true → in_grid bo x y = true →
  -1 ≤ a ≤ 1 → -1 ≤ b ≤ 1 →
  add_neighbor old m x y a b n = Some (n + Z.b2z (alive_at bo (x + a) (y + b))).
Proof.
  intros Hold Hwf Hin Ha Hb. unfold add_neighbor. rewrite Hold. simpl.
  rewrite (in_body_spec _ _ _ _ _ Hwf Hin Ha Hb).
  destruct (in_grid bo (x + a) (y + b)) eqn:Hab.
  - destruct (wf_body_idx _ _ _ Hwf Hab) as [Hi _].
    change ((x + a) * cols bo + (y + b)) with (idx bo (x + a) (y + b)).
    rewrite to_size_t_small by done.
    by rewrite (load_alive _ _ _ _ _ Hold Hwf Hab).
  - rewrite (alive_at_outside _ _ _ Hab). simpl. f_equal. lia.
Qed.

Lemma range_around : range (-1) 2 = [-1; 0; 1].
Proof. reflexivity. Qed.

(** The accumulator of lines 324-332 ends at the direct count. *)
Lemma neighbors_alive_neighbors (m : heap) (old : ptr) (bo : body_t) (x y : Z) :
  m !! old = Some bo → wf_body bo = true → in_grid bo x y = true →
  neighbors old m x y = Some (alive_neighbors bo x y).
Proof.
  intros Hold Hwf Hin. unfold neighbors. rewrite range_around, Hold. simpl.
  destruct (wf_body_idx _ _ _ Hwf Hin) as [Hi _].
  change (x * cols bo + y) with (idx bo x y).
  rewrite to_size_t_small, to_int_small by done.
  rewrite (load_alive _ _ _ _ _ Hold Hwf Hin). simpl.
  repeat (rewrite (add_neighbor_alive old m bo x y) by (done || lia);
          cbn [mbind option_bind]).
  f_equal. unfold alive_neighbors, around. cbn [List.filter fst snd].
  rewrite !Z.add_0_r.
  destruct (alive_at bo x y), (alive_at bo (x + -1) (y + -1)),
    (alive_at bo (x + -1) y), (alive_at bo (x + -1) (y + 1)),
    (alive_at bo x (y + -1)), (alive_at bo x (y + 1)),
    (alive_at bo (x + 1) (y + -1)), (alive_at bo (x + 1) y),
    (alive_at bo (x + 1) (y + 1)); reflexivity.
Qed.

(** C10. On a well-formed grid the value [compute_generation] holds in
    [neighbors] after its two inner loops (start at -1 for an alive cell
    and 0 for a dead one, then add the alive state of every cell of the
    3x3 block that lies in the grid, the centre included) is the number of
    alive cells among the eight surrounding positions that lie in the
    grid. *)
Theorem neighbors_refines_direct_count (m : heap) (old : ptr) (bo : body_t) (x y : Z) :
  m !! old = Some bo → wf_body bo = true → in_grid bo x y = true →
  neighbors old m x y = Some (alive_neighbors bo x y).
Proof. apply neighbors_alive_neighbors. Qed.

(** ** Grids with every cell alive *)

Lemma in_grid_true b x y : 0 ≤ x < cols b ∧ 0 ≤ y < rows b → in_grid b x y = true.
Proof. apply in_grid_spec. Qed.

Lemma in_grid_false b x y :
  x < 0 ∨ cols b ≤ x ∨ y < 0 ∨ rows b ≤ y → in_grid b x y = false.
Proof.
  intros H. destruct (in_grid b x y) eqn:E; [|done].
  apply in_grid_spec in E. lia.
Qed.

Lemma elem_of_positions b x y : (x, y) ∈ positions b ↔ in_grid b x y = true.
Proof.
  unfold positions, grid. rewrite elem_of_pairs, !elem_of_range, in_grid_spec. lia.
Qed.

Lemma all_alive_at b x y :
  all_alive b = true → alive_at b x y = in_grid b x y.
Proof.
  intros Hall. destruct (in_grid b x y) eqn:Hin.
  - unfold all_alive in Hall. rewrite forallb_forall in Hall.
    apply (Hall (x, y)). apply list_elem_of_In. by apply elem_of_positions.
  - by apply alive_at_outside.
Qed.

Lemma all_dead_at b x y : all_dead b = true → alive_at b x y = false.
Proof.
  intros Hall. destruct (in_grid b x y) eqn:Hin; [|by apply alive_at_outside].
  unfold all_dead in Hall. rewrite forallb_forall in Hall.
  apply negb_true_iff, (Hall (x, y)), list_elem_of_In. by apply elem_of_positions.
Qed.

(** Settles each [in_grid] of the goal from the linear facts at hand. *)
Ltac settle_in_grid :=
  repeat match goal with
    | |- context [in_grid ?b ?x ?y] =>
        first [ rewrite (in_grid_true b x y) by lia
              | rewrite (in_grid_false b x y) by lia ]
    end.

Lemma all_alive_neighbors b x y :
  all_alive b = true →
  alive_neighbors b x y
  = Z.of_nat (length (List.filter (λ ab, in_grid b (x + ab.1) (y + ab.2)) around)).
Proof.
  intros Hall. unfold alive_neighbors. do 2 f_equal.
  apply filter_ext. intros ab. by apply all_alive_at.
Qed.

(** C4 (amended). In a well-formed grid of at least two rows and two
    columns with every cell alive, the neighbor count the generation engine
    computes is 3 at the corner [(0, 0)] and 5 at every cell of an edge
    that is not a corner. *)
Theorem all_alive_corner_and_edge_counts (m : heap) (old : ptr) (b : body_t) :
  m !! old = Some b → wf_body b = true → all_alive b = true →
  2 ≤ rows b → 2 ≤ cols b →
  neighbors old m 0 0 = Some 3
  ∧ ∀ x y, in_grid b x y = true → on_edge b x y = true → is_corner b x y = false →
           neighbors old m x y = Some 5.
Proof.
  intros Hold Hwf Hall Hr Hc. split.
  - rewrite (neighbors_alive_neighbors m old b) by (done || apply in_grid_true; lia).
    rewrite all_alive_neighbors by done. unfold around.
    cbn [List.filter fst snd]. settle_in_grid. reflexivity.
  - intros x y Hin Hedge Hcorner.
    rewrite (neighbors_alive_neighbors m old b) by done.
    rewrite all_alive_neighbors by done.
    apply in_grid_spec in Hin. unfold on_edge, is_corner in *.
    rewrite !orb_true_iff, !Z.eqb_eq in Hedge.
    rewrite andb_false_iff, !orb_false_iff, !Z.eqb_neq in Hcorner.
    unfold around. cbn [List.filter fst snd].
    destruct Hedge as [[[Hx|Hx]|Hy]|Hy], Hcorner as [[Hc1 Hc2]|[Hc1 Hc2]];
      try lia; subst; settle_in_grid; reflexivity.
Qed.

(** ** One generation *)

Lemma set_cells_cells b : set_cells b (cells b) = b.
Proof. by destruct b. Qed.

Lemma wf_holds_cells bo bn :
  wf_body bn = true → rows bn = rows bo → cols bn = cols bo →
  holds_cells bo (cells bn).
Proof.
  intros Hwf Hr Hc x y Hin.
  assert (in_grid bn x y = true) as Hin'.
  { apply in_grid_spec. apply in_grid_spec in Hin. lia. }
  destruct (wf_body_cell _ _ _ Hwf Hin') as [v Hv].
  exists v. unfold cell_at, idx in *. rewrite Hc in Hv.
  destruct (cells bn !! Z.to_nat (x * cols bo + y)) as [[w|]|]; by simplify_eq/=.
Qed.

Lemma holds_cells_insert bo cs i v :
  holds_cells bo cs → holds_cells bo (<[i := Some v]> cs).
Proof.
  intros H x y Hin. destruct (H x y Hin) as [w Hw].
  destruct (decide (i = Z.to_nat (idx bo x y))) as [->|Hne].
  - exists v. apply list_lookup_insert_eq. by apply lookup_lt_Some in Hw.
  - exists w. by rewrite list_lookup_insert_ne.
Qed.

(** One pass of the body of the [y] loop, when the two bodies are distinct
    objects. *)
Lemma generation_cell_step new old m bo bn cs p x y :
  new ≠ old → m !! old = Some bo → wf_body bo = true →
  in_grid bo x y = true → holds_cells bo cs →
  generation_cell new old x y (State (<[new := set_cells bn cs]> m) p)
  = Some (State (<[new := set_cells bn
                     (<[Z.to_nat (idx bo x y) := Some (next_alive bo x y)]> cs)]> m)
                (p + Z.b2z (next_alive bo x y))).
Proof.
  intros Hne Hold Hwf Hin Hcs.
  assert (<[new := set_cells bn cs]> m !! old = Some bo) as Hold'
    by by rewrite lookup_insert_ne.
  destruct (wf_body_idx _ _ _ Hwf Hin) as [Hi _].
  destruct (Hcs x y Hin) as [w Hw].
  unfold generation_cell. cbn [mem pop]. rewrite Hold'. cbn [mbind option_bind].
  rewrite (neighbors_alive_neighbors _ _ _ _ _ Hold' Hwf Hin). cbn [mbind option_bind].
  change (x * cols bo + y) with (idx bo x y).
  rewrite to_size_t_small, to_int_small by done.
  rewrite (load_alive _ _ _ _ _ Hold' Hwf Hin). cbn [mbind option_bind].
  assert (<[new := set_cells bn cs]> m !! new = Some (set_cells bn cs)) as Hnew'
    by apply lookup_insert_eq.
  rewrite (store_cell _ _ _ _ _ w Hnew') by (done || lia).
  cbn [mbind option_bind cells set_cells rows cols].
  rewrite insert_insert_eq.
  unfold load. rewrite lookup_insert_eq. cbn [mbind option_bind cells set_cells].
  rewrite decide_True by lia.
  rewrite list_lookup_insert_eq by (by apply lookup_lt_Some in Hw).
  reflexivity.
Qed.

Lemma generation_loop new old m bo bn ps :
  new ≠ old → m !! old = Some bo → wf_body bo = true →
  Forall (λ p, in_grid bo p.1 p.2 = true) ps →
  ∀ cs p, holds_cells bo cs →
    for_each (λ q, generation_cell new old q.1 q.2) ps
             (State (<[new := set_cells bn cs]> m) p)
    = Some (State (<[new := set_cells bn (write_next bo cs ps)]> m)
                  (p + written_alive bo ps)).
Proof.
  intros Hne Hold Hwf Hps. induction Hps as [|[x y] ps Hin _ IH]; intros cs p Hcs.
  - simpl. by rewrite Z.add_0_r.
  - cbn [for_each]. simpl in Hin.
    rewrite (generation_cell_step _ _ _ bo) by done. cbn [mbind option_bind].
    rewrite IH by by apply holds_cells_insert.
    f_equal. f_equal. unfold written_alive. simpl. lia.
Qed.

Lemma Forall_positions b : Forall (λ p, in_grid b p.1 p.2 = true) (positions b).
Proof. apply Forall_forall. intros [x y]. by rewrite elem_of_positions. Qed.

(** The result of [compute_generation] on two distinct bodies. *)
Lemma compute_generation_run new old m p bo bn :
  new ≠ old → m !! old = Some bo → m !! new = Some bn →
  wf_body bo = true → holds_cells bo (cells bn) →
  compute_generation new old (State m p)
  = Some (State (<[new := set_cells bn (write_next bo (cells bn) (positions bo))]> m)
                (written_alive bo (positions bo))).
Proof.
  intros Hne Hold Hnew Hwf Hcs. unfold compute_generation. cbn [mem].
  rewrite Hold. cbn [mbind option_bind].
  rewrite for_each_nested.
  rewrite <- (insert_id m new bn) at 1 by done.
  rewrite <- (set_cells_cells bn) at 1.
  by rewrite (generation_loop new old m bo bn (positions bo))
    by (done || apply Forall_positions).
Qed.

(** ** Sequences of assignments *)

Lemma length_assign_all cs ws : length (assign_all cs ws) = length cs.
Proof.
  revert cs. induction ws as [|w ws IH]; intros cs; [done|].
  change (assign_all cs (w :: ws)) with (assign_all (<[w.1 := Some w.2]> cs) ws).
  by rewrite IH, length_insert.
Qed.

Lemma assign_all_snoc cs ws w :
  assign_all cs (ws ++ [w]) = <[w.1 := Some w.2]> (assign_all cs ws).
Proof. unfold assign_all. by rewrite foldl_app. Qed.

(** A slot some assignment addressed holds the value of one of them (the
    last). *)
Lemma assign_all_lookup cs ws i :
  (i < length cs)%nat → i ∈ ws.*1 →
  ∃ w, w ∈ ws ∧ w.1 = i ∧ assign_all cs ws !! i = Some (Some w.2).
Proof.
  intros Hi. induction ws as [|q ws IH] using rev_ind.
  - intros H. by apply elem_of_nil in H.
  - rewrite fmap_app, elem_of_app, assign_all_snoc. intros H.
    destruct (decide (q.1 = i)) as [Hq|Hq].
    + exists q. split; [apply elem_of_app; right; by apply list_elem_of_singleton|].
      split; [done|]. rewrite Hq.
      apply list_lookup_insert_eq. by rewrite length_assign_all.
    + destruct H as [H|H]; [|apply list_elem_of_singleton in H; simpl in H; congruence].
      destruct (IH H) as (w & Hw & Hwi & Hl).
      exists w. split; [apply elem_of_app; by left|]. split; [done|].
      by rewrite list_lookup_insert_ne.
Qed.

(** A slot no assignment addressed is left as it was. *)
Lemma assign_all_lookup_other cs ws i :
  i ∉ ws.*1 → assign_all cs ws !! i = cs !! i.
Proof.
  induction ws as [|q ws IH] using rev_ind; intros H; [done|].
  rewrite fmap_app, not_elem_of_app in H. destruct H as [H1 H2].
  rewrite assign_all_snoc, list_lookup_insert_ne; [by apply IH|].
  intros Hq. apply H2. simpl. rewrite Hq. by apply list_elem_of_singleton.
Qed.

Lemma holds_cells_assign_all bo cs ws :
  holds_cells bo cs → holds_cells bo (assign_all cs ws).
Proof.
  revert cs. induction ws as [|w ws IH]; intros cs H; [done|].
  apply (IH (<[w.1 := Some w.2]> cs)). by apply holds_cells_insert.
Qed.

Lemma elem_of_generation_writes bo ps w :
  w ∈ generation_writes bo ps
  ↔ ∃ x y, (x, y) ∈ ps ∧ w = (Z.to_nat (idx bo x y), next_alive bo x y).
Proof.
  unfold generation_writes. rewrite list_elem_of_fmap. split.
  - intros ([x y] & -> & Hp). by exists x, y.
  - intros (x & y & Hp & ->). by exists (x, y).
Qed.

(** The value every position of the grid reads after the loops of
    [compute_generation]: the state the rule gives a position with the same
    offset. *)
Lemma write_next_lookup bo cs x y :
  wf_body bo = true → holds_cells bo cs → in_grid bo x y = true →
  ∃ x' y', in_grid bo x' y' = true ∧ idx bo x' y' = idx bo x y
           ∧ write_next bo cs (positions bo) !! Z.to_nat (idx bo x y)
             = Some (Some (next_alive bo x' y')).
Proof.
  intros Hwf Hcs Hin. destruct (Hcs x y Hin) as [w Hw]. apply lookup_lt_Some in Hw.
  destruct (assign_all_lookup cs (generation_writes bo (positions bo)) _ Hw)
    as (w' & Hw' & Hi & Hl).
  { apply list_elem_of_fmap.
    exists (Z.to_nat (idx bo x y), next_alive bo x y). split; [done|].
    apply elem_of_generation_writes. exists x, y.
    split; [by apply elem_of_positions|done]. }
  apply elem_of_generation_writes in Hw' as (x' & y' & Hp & ->).
  apply elem_of_positions in Hp. simpl in *.
  destruct (wf_body_idx _ _ _ Hwf Hp) as [Hi1 _].
  destruct (wf_body_idx _ _ _ Hwf Hin) as [Hi2 _].
  exists x', y'. split; [done|]. split; [lia|done].
Qed.

(** C5. Called on two distinct well-formed bodies of the same dimensions,
    [compute_generation] returns, leaves the previous generation as it
    was, and leaves in every cell of the next generation a state it
    computed from the previous one: no cell keeps the state it had before
    the call. *)
Theorem compute_generation_overwrites_next_keeps_prev
    (new old : ptr) (s : state) (bo bn : body_t) :
  new ≠ old → mem s !! old = Some bo → mem s !! new = Some bn →
  wf_body bo = true → wf_body bn = true →
  rows bn = rows bo → cols bn = cols bo →
  ∃ s' bn',
    compute_generation new old s = Some s'
    ∧ mem s' !! old = Some bo
    ∧ mem s' !! new = Some bn'
    ∧ rows bn' = rows bn ∧ cols bn' = cols bn
    ∧ ∀ x y, in_grid bn x y = true →
        ∃ x' y', in_grid bo x' y' = true ∧ idx bo x' y' = idx bo x y
                 ∧ cell_at bn' x y = Some (next_alive bo x' y').
Proof.
  intros Hne Hold Hnew Hwfo Hwfn Hr Hc. destruct s as [m p]. cbn [mem] in *.
  pose proof (wf_holds_cells bo bn Hwfn Hr Hc) as Hcs.
  eexists _, _. split; [by apply compute_generation_run|]. cbn [mem].
  split; [by rewrite lookup_insert_ne|].
  split; [by rewrite lookup_insert_eq|].
  split; [done|]. split; [done|].
  intros x y Hin.
  assert (in_grid bo x y = true) as Hin'.
  { apply in_grid_spec. apply in_grid_spec in Hin. lia. }
  destruct (write_next_lookup bo (cells bn) x y Hwfo Hcs Hin')
    as (x' & y' & Hp & Hi & Hl).
  exists x', y'. split; [done|]. split; [done|].
  unfold cell_at.
  replace (idx (set_cells bn (write_next bo (cells bn) (positions bo))) x y)
    with (idx bo x y) by (unfold idx; cbn [cols set_cells]; by rewrite Hc).
  cbn [cells set_cells]. by rewrite Hl.
Qed.

(** ** Interactive seeding *)

Lemma toggle_run body m p b x y :
  m !! body = Some b → wf_body b = true → in_grid b x y = true →
  toggle body x y (State m p)
  = Some (State (<[body := set_cells b (<[Z.to_nat (idx b x y)
                                           := Some (negb (alive_at b x y))]> (cells b))]> m)
                (p + (2 * Z.b2z (negb (alive_at b x y)) - 1))).
Proof.
  intros Hb Hwf Hin.
  destruct (wf_body_idx _ _ _ Hwf Hin) as [Hi Hlen].
  destruct (wf_body_cell _ _ _ Hwf Hin) as [c Hc].
  pose proof (alive_at_cell _ _ _ _ Hin Hc) as Ha. unfold cell_at in Hc.
  destruct (cells b !! Z.to_nat (idx b x y)) as [[c'|]|] eqn:Hslot;
    simplify_eq/=.
  unfold toggle. cbn [mem pop]. rewrite Hb. cbn [mbind option_bind].
  change (x * cols b + y) with (idx b x y).
  rewrite to_size_t_small, to_int_small by done.
  rewrite (load_alive _ _ _ _ _ Hb Hwf Hin). cbn [mbind option_bind].
  rewrite (store_cell _ _ _ _ _ _ Hb) by (done || lia).
  cbn [mbind option_bind].
  unfold load. rewrite lookup_insert_eq. cbn [mbind option_bind cells set_cells].
  rewrite decide_True by lia.
  by rewrite list_lookup_insert_eq by done.
Qed.

(** A toggle seen from the array, on a well-formed grid of any dimensions:
    it flips the slot of the position and no other slot, adds 1 to the
    population when the cell became alive and -1 when it became dead, and a
    second toggle at the same position restores the bodies and the
    population. *)
Theorem toggle_flips_one_cell_and_twice_restores
    (body : ptr) (s : state) (b : body_t) (x y : Z) :
  mem s !! body = Some b → wf_body b = true → in_grid b x y = true →
  ∃ s1 b1,
    toggle body x y s = Some s1
    ∧ mem s1 !! body = Some b1
    ∧ cell_at b1 x y = Some (negb (alive_at b x y))
    ∧ (∀ i, i ≠ Z.to_nat (idx b x y) → cells b1 !! i = cells b !! i)
    ∧ pop s1 = pop s + (if alive_at b1 x y then 1 else -1)
    ∧ toggle body x y s1 = Some s.
Proof.
  intros Hb Hwf Hin. destruct s as [m p]. cbn [mem pop] in *.
  destruct (wf_body_idx _ _ _ Hwf Hin) as [Hi Hlen].
  destruct (wf_body_cell _ _ _ Hwf Hin) as [c Hc].
  pose proof (alive_at_cell _ _ _ _ Hin Hc) as Ha. unfold cell_at in Hc.
  destruct (cells b !! Z.to_nat (idx b x y)) as [[c'|]|] eqn:Hslot;
    simplify_eq/=.
  set (b1 := set_cells b (<[Z.to_nat (idx b x y) := Some (negb (alive_at b x y))]> (cells b))).
  assert (cell_at b1 x y = Some (negb (alive_at b x y))) as Hc1.
  { unfold cell_at, b1. cbn [cells set_cells]. unfold idx at 1. cbn [cols set_cells].
    fold (idx b x y). by rewrite list_lookup_insert_eq. }
  assert (in_grid b1 x y = true) as Hin1 by done.
  assert (wf_body b1 = true) as Hwf1 by by apply wf_body_insert.
  exists (State (<[body := b1]> m) (p + (2 * Z.b2z (negb (alive_at b x y)) - 1))), b1.
  split; [by apply toggle_run|]. cbn [mem pop].
  split; [by rewrite lookup_insert_eq|]. split; [done|].
  split; [intros i Hne; subst b1; cbn [cells set_cells];
          by rewrite list_lookup_insert_ne|].
  rewrite (alive_at_cell _ _ _ _ Hin1 Hc1).
  split; [by destruct (alive_at b x y)|].
  assert (<[body := b1]> m !! body = Some b1) as Hb1 by apply lookup_insert_eq.
  rewrite (toggle_run body _ _ b1 x y Hb1 Hwf1 Hin1).
  rewrite (alive_at_cell _ _ _ _ Hin1 Hc1), negb_involutive.
  f_equal. f_equal.
  - rewrite insert_insert_eq. subst b1. unfold idx. cbn [cells cols set_cells].
    fold (idx b x y). rewrite list_insert_insert_eq.
    change (set_cells (set_cells b ?cs1) ?cs2) with (set_cells b cs2).
    rewrite list_insert_id by done.
    rewrite set_cells_cells. by apply insert_id.
  - destruct (alive_at b x y); simpl; lia.
Qed.

(** Every click of the interactive mode keeps the population counter in
    step with the number of alive cells, wherever it lands. *)
Lemma population_insert b i c v :
  cells b !! i = Some (Some c) →
  population (set_cells b (<[i := Some v]> (cells b)))
  = population b - Z.b2z c + Z.b2z v.
Proof.
  unfold population. cbn [cells set_cells]. generalize (cells b) as cs.
  intros cs. revert i. induction cs as [|o cs IH]; intros [|i] H; simplify_eq/=.
  - rewrite (bool_decide_ext (Some v = Some true) (v = true)) by naive_solver.
    rewrite (bool_decide_ext (Some c = Some true) (c = true)) by naive_solver.
    destruct c, v; simpl; lia.
  - specialize (IH i H). destruct (bool_decide (o = Some true)); simpl in *; lia.
Qed.

Lemma toggle_counted body x y s s1 :
  counted body s → toggle body x y s = Some s1 → counted body s1.
Proof.
  intros (b & Hb & Hp). unfold toggle, store, load. rewrite Hb.
  cbn [mbind option_bind].
  destruct (decide (0 ≤ to_int (to_size_t (x * cols b + y)))) as [Hi|]; [|done].
  destruct (cells b !! Z.to_nat (to_int (to_size_t (x * cols b + y))))
    as [[c|]|] eqn:Hc; [|done..].
  cbn [mbind option_bind mjoin option_join]. rewrite lookup_insert_eq.
  cbn [mbind option_bind cells set_cells].
  rewrite list_lookup_insert_eq by (by apply lookup_lt_Some in Hc).
  cbn [mbind option_bind mjoin option_join]. intros [= <-].
  eexists. cbn [mem pop]. split; [apply lookup_insert_eq|].
  rewrite (population_insert _ _ _ _ Hc). destruct c; simpl; lia.
Qed.

Lemma drain_counted w h body evs :
  ∀ cap s d, counted body s → drain w h body evs cap s = Some d →
    match d with Stopped s' | Polled _ s' => counted body s' end.
Proof.
  induction evs as [|ev evs IH]; intros cap s d Hs; cbn [drain].
  - by intros [= <-].
  - destruct ev; try (by apply IH); try (by intros [= <-]).
    unfold click. destruct (decide (w = 0 ∨ h = 0)); [done|].
    destruct (toggle body (mx ÷ w) (my ÷ h) s) as [s1|] eqn:Ht; [|done].
    cbn [mbind option_bind]. apply IH. by eapply toggle_counted.
Qed.

(** Whenever [drawing_mode] returns, with the body or with NULL, the
    population counter is the number of alive cells of the body. *)
Lemma drawing_mode_counted w h body queue :
  ∀ s r s', counted body s → drawing_mode w h body queue s = Some (r, s') →
    counted body s'.
Proof.
  induction queue as [|evs queue IH]; intros s r s' Hs; cbn [drawing_mode]; [done|].
  destruct (drain w h body evs true s) as [d|] eqn:Hd; [|done].
  pose proof (drain_counted _ _ _ _ _ _ _ Hs Hd) as Hd'.
  cbn [mbind option_bind]. destruct d as [s1|[|] s1].
  - by intros [= _ <-].
  - by apply IH.
  - by intros [= _ <-].
Qed.

(** ** Square grids

    When [rows = cols] the offsets [x * cols + y] of the positions are the
    numbers [0 .. rows * cols - 1] in the order of the loops, each once. *)

Lemma idx_inj_square b x y x' y' :
  rows b = cols b → in_grid b x y = true → in_grid b x' y' = true →
  idx b x y = idx b x' y' → x = x' ∧ y = y'.
Proof.
  rewrite !in_grid_spec. unfold idx. intros Hsq [Hx Hy] [Hx' Hy'] Hi.
  assert (x = x') by nia. subst. lia.
Qed.

Lemma idx_pairs (n : Z) (k : nat) :
  0 ≤ n →
  (λ p : Z * Z, p.1 * n + p.2) <$> (x ← seqZ 0 (Z.of_nat k); y ← seqZ 0 n; [(x, y)])
  = seqZ 0 (Z.of_nat k * n).
Proof.
  intros Hn. induction k as [|k IH]; [done|].
  rewrite seqZ_S, bind_app, fmap_app, IH. simpl. rewrite app_nil_r.
  replace (Z.of_nat (S k) * n) with (Z.of_nat k * n + n) by lia.
  rewrite seqZ_app by lia. f_equal.
  replace (seqZ 0 n ≫= λ y, [(Z.of_nat k, y)])
    with ((λ y, (Z.of_nat k, y)) <$> seqZ 0 n)
    by (induction (seqZ 0 n); simpl; [done|by f_equal]).
  rewrite <- list_fmap_compose.
  transitivity (Z.add (Z.of_nat k * n) <$> seqZ 0 n).
  - apply list_fmap_ext. intros _ y _. simpl. lia.
  - rewrite fmap_add_seqZ. f_equal. lia.
Qed.

Lemma idx_positions_square b :
  wf_body b = true → rows b = cols b →
  (λ p, idx b p.1 p.2) <$> positions b = seqZ 0 (rows b * cols b).
Proof.
  intros Hwf Hsq. destruct (wf_body_dims _ Hwf) as (Hr & Hc & _).
  unfold positions, grid, range, idx. rewrite !Z.sub_0_r, Hsq.
  pose proof (idx_pairs (cols b) (Z.to_nat (cols b)) ltac:(lia)) as H.
  by rewrite Z2Nat.id in H by lia.
Qed.

(** An array of a square grid is determined by what the positions read. *)
Lemma square_array b (l : list (option bool)) (F : Z * Z → option bool) :
  wf_body b = true → rows b = cols b → length l = length (cells b) →
  (∀ x y, in_grid b x y = true → l !! Z.to_nat (idx b x y) = Some (F (x, y))) →
  l = F <$> positions b.
Proof.
  intros Hwf Hsq Hlen Hl.
  destruct (wf_body_dims _ Hwf) as (Hr & Hc & Hrc & Hlen').
  pose proof (idx_positions_square b Hwf Hsq) as Hidx.
  assert (length (positions b) = length l) as Hlp.
  { rewrite <- (length_fmap (λ p, idx b p.1 p.2)), Hidx, length_seqZ. lia. }
  apply list_eq. intros i. rewrite list_lookup_fmap.
  destruct (positions b !! i) as [[x y]|] eqn:Hp.
  - assert (idx b x y = Z.of_nat i) as Hi.
    { assert (((λ p, idx b p.1 p.2) <$> positions b) !! i = Some (idx b x y)) as H
        by by rewrite list_lookup_fmap, Hp.
      rewrite Hidx in H. apply lookup_seqZ in H. lia. }
    apply list_elem_of_lookup_2, elem_of_positions in Hp.
    simpl. by rewrite <- (Hl x y Hp), Hi, Nat2Z.id.
  - apply lookup_ge_None in Hp. apply lookup_ge_None. lia.
Qed.

(** After the loops have visited every position of a square grid the
    array is the list of the states the rule gives the positions. *)
Lemma write_next_square bo cs :
  wf_body bo = true → rows bo = cols bo → length cs = length (cells bo) →
  holds_cells bo cs →
  write_next bo cs (positions bo)
  = (λ p, Some (next_alive bo p.1 p.2)) <$> positions bo.
Proof.
  intros Hwf Hsq Hlen Hcs. apply square_array; try done.
  - unfold write_next. by rewrite length_assign_all.
  - intros x y Hin.
    destruct (write_next_lookup bo cs x y Hwf Hcs Hin) as (x' & y' & Hin' & Hi & Hl).
    by destruct (idx_inj_square bo x' y' x y) as [-> ->].
Qed.

(** The array of a well-formed square body, read through the positions. *)
Lemma cells_square b :
  wf_body b = true → rows b = cols b →
  cells b = (λ p, Some (alive_at b p.1 p.2)) <$> positions b.
Proof.
  intros Hwf Hsq. apply square_array; try done.
  intros x y Hin. destruct (wf_body_cell _ _ _ Hwf Hin) as [v Hv].
  change (cells b !! Z.to_nat (idx b x y) = Some (Some (alive_at b x y))).
  rewrite (alive_at_cell _ _ _ _ Hin Hv). unfold cell_at in Hv.
  by destruct (cells b !! Z.to_nat (idx b x y)) as [[w|]|]; simplify_eq/=.
Qed.

Lemma population_states (f : Z * Z → bool) (ps : list (Z * Z)) :
  Z.of_nat (length (List.filter (λ c, bool_decide (c = Some true))
                                ((λ p, Some (f p)) <$> ps)))
  = foldr (λ p n, Z.b2z (f p) + n) 0 ps.
Proof.
  induction ps as [|p ps IH]; [done|]. cbn [fmap list_fmap List.filter foldr].
  rewrite <- IH. destruct (f p).
  - rewrite bool_decide_eq_true_2 by done. cbn [length Z.b2z]. lia.
  - rewrite bool_decide_eq_false_2 by done. cbn [Z.b2z]. lia.
Qed.

(** On square grids [compute_generation] does what the specification says
    of it: every cell of the next generation holds the state the rule
    gives its position, and the population reported is the number of
    alive cells of the next generation. *)
Lemma compute_generation_square (new old : ptr) (s : state) (bo bn : body_t) :
  new ≠ old → mem s !! old = Some bo → mem s !! new = Some bn →
  wf_body bo = true → wf_body bn = true →
  rows bn = rows bo → cols bn = cols bo → rows bo = cols bo →
  ∃ s' bn',
    compute_generation new old s = Some s'
    ∧ mem s' !! old = Some bo
    ∧ mem s' !! new = Some bn'
    ∧ (∀ x y, in_grid bo x y = true → cell_at bn' x y = Some (next_alive bo x y))
    ∧ pop s' = population bn'.
Proof.
  intros Hne Hold Hnew Hwfo Hwfn Hr Hc Hsq. destruct s as [m p]. cbn [mem] in *.
  pose proof (wf_holds_cells bo bn Hwfn Hr Hc) as Hcs.
  destruct (wf_body_dims _ Hwfo) as (_ & _ & _ & Hlo).
  destruct (wf_body_dims _ Hwfn) as (_ & _ & _ & Hln).
  eexists _, _. split; [by apply compute_generation_run|]. cbn [mem pop].
  split; [by rewrite lookup_insert_ne|].
  split; [by rewrite lookup_insert_eq|].
  split.
  - intros x y Hin. unfold cell_at.
    replace (idx (set_cells bn _) x y) with (idx bo x y)
      by (unfold idx; cbn [cols set_cells]; by rewrite Hc).
    cbn [cells set_cells].
    destruct (write_next_lookup bo (cells bn) x y Hwfo Hcs Hin)
      as (x' & y' & Hin' & Hi & Hl).
    destruct (idx_inj_square bo x' y' x y) as [-> ->]; try done.
    by rewrite Hl.
  - rewrite write_next_square by (done || rewrite Hlo, Hln, Hr, Hc; done).
    unfold population, written_alive. cbn [cells set_cells].
    by rewrite population_states.
Qed.

(** ** Text: printing and reading decimal numbers *)

Lemma digit_val_char d :
  0 ≤ d ≤ 9 → digit_val (ascii_of_nat (48 + Z.to_nat d)) = Some d.
Proof.
  intros H.
  assert (d = 0 ∨ d = 1 ∨ d = 2 ∨ d = 3 ∨ d = 4 ∨ d = 5 ∨ d = 6 ∨ d = 7
          ∨ d = 8 ∨ d = 9) as Hd by lia.
  repeat destruct Hd as [->|Hd]; try reflexivity. by subst.
Qed.

(** A digit is neither white space, nor a sign, nor a comma. *)
Lemma digit_val_plain c d :
  digit_val c = Some d →
  isspace c = false ∧ Ascii.eqb c "-" = false ∧ Ascii.eqb c "+" = false
  ∧ Ascii.eqb c comma = false.
Proof.
  unfold digit_val, isspace. intros H.
  destruct ((48 <=? nat_of_ascii c)%nat && (nat_of_ascii c <=? 57)%nat) eqn:E;
    [|done].
  apply andb_true_iff in E as [E1 E2].
  apply Nat.leb_le in E1, E2.
  split; [|split; [|split]].
  - apply orb_false_iff. split; [apply Nat.eqb_neq; lia|].
    apply andb_false_iff. right. apply Nat.leb_gt. lia.
  - apply Ascii.eqb_neq. intros ->. vm_compute in E1. lia.
  - apply Ascii.eqb_neq. intros ->. vm_compute in E1. lia.
  - apply Ascii.eqb_neq. intros ->. vm_compute in E1. lia.
Qed.

Lemma all_digits_digits_of fuel n acc :
  0 ≤ n → all_digits acc = true → all_digits (digits_of fuel n acc) = true.
Proof.
  revert n acc. induction fuel as [|fuel IH]; intros n acc Hn Hacc; [done|].
  assert (all_digits (String (ascii_of_nat (48 + Z.to_nat (n mod 10))) acc) = true)
    as Hd.
  { cbn [all_digits]. rewrite digit_val_char by (pose proof (Z.mod_pos_bound n 10); lia).
    by rewrite bool_decide_eq_true_2 by by eexists. }
  cbn [digits_of]. destruct (n / 10 =? 0); [done|].
  apply IH; [|done]. apply Z.div_pos; lia.
Qed.

Lemma digits_of_nonempty fuel n acc :
  fuel ≠ O ∨ acc ≠ EmptyString → digits_of fuel n acc ≠ EmptyString.
Proof.
  revert n acc. induction fuel as [|fuel IH]; intros n acc H; [by destruct H|].
  cbn [digits_of]. destruct (n / 10 =? 0); [done|]. apply IH. by right.
Qed.

(** Reading back what [digits_of] wrote, in front of any text. *)
Lemma atoi_digits_digits_of fuel n acc a :
  0 ≤ n < 10 ^ Z.of_nat fuel →
  atoi_digits a (digits_of fuel n acc)
  = atoi_digits (a * 10 ^ Z.of_nat (width fuel n) + n) acc.
Proof.
  revert n acc a. induction fuel as [|fuel IH]; intros n acc a Hn.
  - simpl in *. f_equal. lia.
  - rewrite Nat2Z.inj_succ, Z.pow_succ_r in Hn by lia.
    cbn [digits_of width]. destruct (Z.eqb_spec (n / 10) 0) as [Hq|Hq].
    + cbn [atoi_digits]. rewrite digit_val_char by (pose proof (Z.mod_pos_bound n 10); lia).
      f_equal. change (Z.of_nat 1) with 1. rewrite Z.pow_1_r.
      pose proof (Z.div_mod n 10). lia.
    + rewrite IH by (split; [apply Z.div_pos; lia|apply Z.div_lt_upper_bound; lia]).
      cbn [atoi_digits]. rewrite digit_val_char by (pose proof (Z.mod_pos_bound n 10); lia).
      f_equal. rewrite Nat2Z.inj_succ, Z.pow_succ_r by lia.
      pose proof (Z.div_mod n 10). lia.
Qed.

Lemma print_int_digits z :
  0 ≤ z → all_digits (print_int z) = true ∧ print_int z ≠ EmptyString.
Proof.
  intros Hz. unfold print_int. rewrite (proj2 (Z.ltb_ge z 0)) by lia. split.
  - by apply all_digits_digits_of.
  - apply digits_of_nonempty. by left.
Qed.

Lemma all_digits_head s :
  all_digits s = true → s ≠ EmptyString →
  ∃ c d s', s = String c s' ∧ digit_val c = Some d.
Proof.
  destruct s as [|c s']; [done|]. cbn [all_digits]. intros H _.
  apply andb_true_iff in H as [H _]. apply bool_decide_eq_true in H as [d Hd].
  by exists c, d, s'.
Qed.

(** [atoi] reads back the non-negative [int]s that ["%d"] prints. *)
Lemma atoi_print_int z : 0 ≤ z ≤ INT_MAX → atoi (print_int z) = Some z.
Proof.
  intros Hz. destruct (print_int_digits z) as [Hd Hne]; [lia|].
  destruct (all_digits_head _ Hd Hne) as (c & d & s' & Hs & Hc).
  destruct (digit_val_plain _ _ Hc) as (Hsp & Hminus & Hplus & _).
  unfold atoi. rewrite Hs. cbn [skip_space]. rewrite Hsp, Hminus, Hplus.
  rewrite <- Hs. unfold print_int. rewrite (proj2 (Z.ltb_ge z 0)) by lia.
  rewrite atoi_digits_digits_of by (unfold INT_MAX in Hz; simpl; lia).
  cbn [atoi_digits]. rewrite Z.mul_0_l, Z.add_0_l.
  unfold INT_MAX in *.
  by rewrite (proj2 (Z.leb_le _ z)), (proj2 (Z.leb_le z _)) by lia.
Qed.

Lemma skip_delim_digits s : all_digits s = true → skip_delim comma s = s.
Proof.
  destruct s as [|c s']; [done|]. cbn [all_digits skip_delim]. intros H.
  apply andb_true_iff in H as [H _]. apply bool_decide_eq_true in H as [d Hd].
  destruct (digit_val_plain _ _ Hd) as (_ & _ & _ & Hcomma). by rewrite Hcomma.
Qed.

Lemma span_token_digits s r :
  all_digits s = true →
  span_token comma (s ++ String comma r)%string = (s, r)
  ∧ span_token comma s = (s, EmptyString).
Proof.
  induction s as [|c s' IH];
    [intros _; split; reflexivity|].
  cbn [all_digits]. intros H. apply andb_true_iff in H as [H Hs'].
  apply bool_decide_eq_true in H as [d Hd].
  destruct (digit_val_plain _ _ Hd) as (_ & _ & _ & Hcomma).
  destruct (IH Hs') as [IH1 IH2].
  simpl. by rewrite Hcomma, IH1, IH2.
Qed.

(** [strtok] on a number followed by a comma, and on a number alone. *)
Lemma strtok_digits s r :
  all_digits s = true → s ≠ EmptyString →
  strtok comma (s ++ String comma r)%string = Some (s, r)
  ∧ strtok comma s = Some (s, EmptyString).
Proof.
  intros Hd Hne. destruct (span_token_digits s r Hd) as [H1 H2].
  destruct (all_digits_head _ Hd Hne) as (c & d & s' & -> & Hc).
  destruct (digit_val_plain _ _ Hc) as (_ & _ & _ & Hcomma).
  unfold strtok. simpl skip_delim. rewrite Hcomma.
  change (String c (s' ++ String comma r))%string
    with (String c s' ++ String comma r)%string.
  by rewrite H1, H2.
Qed.

Lemma chop_line s : chop (line s) = Some s.
Proof.
  unfold line. induction s as [|c s' IH]; [done|].
  simpl. rewrite IH.
  by destruct (s' ++ String newline EmptyString)%string eqn:E;
    [destruct s'; simplify_eq/=|].
Qed.

Lemma append_assoc (s1 s2 s3 : string) :
  ((s1 ++ s2) ++ s3 = s1 ++ (s2 ++ s3))%string.
Proof.
  induction s1 as [|c s1 IH]; [done|].
  change (String c ((s1 ++ s2) ++ s3) = String c (s1 ++ (s2 ++ s3)))%string.
  by rewrite IH.
Qed.

Lemma export_line_line x y :
  export_line x y = line (print_int x ++ String comma (print_int y))%string.
Proof. unfold export_line, line. by rewrite append_assoc. Qed.

(** ** Fresh bodies *)

Lemma init_slot_step c x y cs :
  0 ≤ x * c + y ≤ INT_MAX → (Z.to_nat (x * c + y) < length cs)%nat →
  init_slot c x y cs = Some (<[Z.to_nat (x * c + y) := Some false]> cs).
Proof.
  intros Hi Hlt. unfold init_slot.
  rewrite to_size_t_small by done. by rewrite decide_True by done.
Qed.

Lemma init_loop c ps :
  ∀ cs,
    Forall (λ p, 0 ≤ p.1 * c + p.2 ≤ INT_MAX
                 ∧ (Z.to_nat (p.1 * c + p.2) < length cs)%nat) ps →
    for_each (λ q, init_slot c q.1 q.2) ps cs = Some (assign_all cs (init_writes c ps)).
Proof.
  induction ps as [|[x y] ps IH]; intros cs Hps; [done|].
  apply Forall_cons in Hps as [[Hi Hlt] Hps]. simpl in Hi, Hlt.
  cbn [for_each fst snd]. rewrite init_slot_step by done.
  cbn [mbind option_bind]. rewrite IH; [done|].
  eapply Forall_impl; [exact Hps|]. intros p [H1 H2].
  split; [done|]. by rewrite length_insert.
Qed.

(** [body_init] returns for every grid that is at least as high as it is
    wide; the body is well formed and all its cells are dead. *)
Lemma body_init_fresh r c :
  0 ≤ r ≤ INT_MAX → 0 ≤ c ≤ INT_MAX → r * c ≤ INT_MAX → c ≤ r →
  body_init r c = Some (fresh_body r c)
  ∧ wf_body (fresh_body r c) = true ∧ all_dead (fresh_body r c) = true.
Proof.
  intros Hr Hc Hrc Hcr.
  assert (∀ x y, (x, y) ∈ grid r c →
            0 ≤ x * c + y ≤ INT_MAX ∧ x * c + y < r * c) as Hgrid.
  { intros x y H. unfold grid in H. rewrite elem_of_pairs, !elem_of_range in H. nia. }
  assert (∀ x y, in_grid (fresh_body r c) x y = true →
            cell_at (fresh_body r c) x y = Some false) as Hcell.
  { intros x y Hin. rewrite <- elem_of_positions in Hin.
    destruct (Hgrid x y Hin) as [Hi Hlt].
    destruct (assign_all_lookup (replicate (Z.to_nat (r * c)) None)
                (init_writes c (grid r c)) (Z.to_nat (x * c + y)))
      as (w & Hw & Hwi & Hl).
    { rewrite length_replicate. lia. }
    { apply list_elem_of_fmap. exists (Z.to_nat (x * c + y), false).
      split; [done|]. unfold init_writes. apply list_elem_of_fmap. by exists (x, y). }
    unfold init_writes in Hw. apply list_elem_of_fmap in Hw as (q & -> & _).
    unfold cell_at, fresh_body, idx. cbn [cells cols]. by rewrite Hl. }
  split; [|split].
  - unfold body_init.
    replace (to_size_t (to_size_t (r * c) * 8) / 8) with (r * c).
    2:{ assert (0 ≤ r * c) by (apply Z.mul_nonneg_nonneg; lia).
        rewrite (to_size_t_small (r * c)) by lia. unfold to_size_t.
        rewrite Z.mod_small by (unfold INT_MAX in *; lia). by rewrite Z.div_mul. }
    rewrite for_each_nested. fold (grid r c).
    rewrite init_loop; [done|].
    apply Forall_forall. intros [x y] H. destruct (Hgrid x y H) as [Hi Hlt].
    simpl. rewrite length_replicate. lia.
  - apply wf_body_intro; cbn [rows cols cells fresh_body]; try done.
    + by rewrite length_assign_all, length_replicate.
    + intros x y Hin. rewrite (Hcell x y Hin). by eexists.
  - unfold all_dead. apply forallb_forall. intros [x y] Hp.
    apply list_elem_of_In, elem_of_positions in Hp. cbn [fst snd].
    by rewrite (alive_at_cell _ _ _ _ Hp (Hcell x y Hp)).
Qed.

(** ** Doubles in the exact range *)

Lemma round_exact n : n < 2 ^ 53 → Double.round n = n.
Proof. intros H. unfold Double.round. by rewrite (proj2 (Z.ltb_lt _ _)). Qed.

Lemma of_size_t_small n : 0 ≤ n ≤ INT_MAX → Double.of_size_t n = 4 * n.
Proof.
  intros H. unfold Double.of_size_t. apply round_exact. unfold INT_MAX in H. lia.
Qed.

Lemma half_small n : 0 ≤ n ≤ INT_MAX → half n = 2 * n.
Proof.
  intros H. unfold half, Double.scale. rewrite of_size_t_small by done.
  replace (2 * (4 * n) / 4) with (2 * n)
    by (replace (2 * (4 * n)) with (2 * n * 4) by lia; by rewrite Z.div_mul).
  apply round_exact. unfold INT_MAX in H. lia.
Qed.

Lemma quarter_small n : 0 ≤ n ≤ INT_MAX → quarter n = Some (n / 4).
Proof.
  intros H. unfold quarter, Double.scale, Double.to_size_t.
  rewrite of_size_t_small by done.
  replace (1 * (4 * n) / 4) with n
    by (replace (1 * (4 * n)) with (n * 4) by lia; by rewrite Z.div_mul).
  rewrite round_exact by (unfold INT_MAX in H; lia).
  assert (0 ≤ n / 4 ≤ n) by (split; [apply Z.div_pos|apply Z.div_le_upper_bound]; lia).
  rewrite (proj2 (Z.ltb_lt _ _)); [done|]. unfold INT_MAX in H. lia.
Qed.

Lemma three_quarters_small n :
  0 ≤ n ≤ INT_MAX → three_quarters n = Some (3 * n / 4).
Proof.
  intros H. unfold three_quarters, Double.scale, Double.to_size_t.
  rewrite of_size_t_small by done.
  replace (3 * (4 * n) / 4) with (3 * n)
    by (replace (3 * (4 * n)) with (3 * n * 4) by lia; by rewrite Z.div_mul).
  rewrite round_exact by (unfold INT_MAX in H; lia).
  assert (0 ≤ 3 * n / 4 ≤ 3 * n)
    by (split; [apply Z.div_pos|apply Z.div_le_upper_bound]; lia).
  rewrite (proj2 (Z.ltb_lt _ _)); [done|]. unfold INT_MAX in H. lia.
Qed.

(** A printed non-negative offset is read back and moved by half the
    dimension. *)
Lemma offset_coord_print a dim :
  0 ≤ a ≤ INT_MAX → 0 ≤ dim ≤ INT_MAX →
  offset_coord (print_int a) dim = Some (a + dim / 2).
Proof.
  intros Ha Hd. unfold offset_coord. rewrite atoi_print_int by done.
  cbn [mbind option_bind]. rewrite to_size_t_small by done.
  unfold Double.add. rewrite of_size_t_small, half_small by done.
  rewrite round_exact by (unfold INT_MAX in *; lia).
  unfold Double.to_size_t.
  replace ((4 * a + 2 * dim) / 4) with (a + dim / 2).
  - assert (0 ≤ dim / 2 ≤ dim)
      by (split; [apply Z.div_pos|apply Z.div_le_upper_bound]; lia).
    rewrite (proj2 (Z.ltb_lt _ _)); [done|]. unfold INT_MAX in *. lia.
  - replace (4 * a + 2 * dim) with (a * 4 + 2 * dim) by lia.
    rewrite Z.div_add_l by lia. f_equal.
    change 4 with (2 * 2). by rewrite Z.div_mul_cancel_l by lia.
Qed.

(** ** Random seeding *)

Lemma random_cell_step rand ap body m b cs p k x y :
  wf_body b = true → holds_cells b cs → in_grid b x y = true →
  random_cell rand ap body x y (State (<[body := set_cells b cs]> m) p, k)
  = Some (State (<[body := set_cells b
                     (<[Z.to_nat (idx b x y) := Some (draw rand ap k)]> cs)]> m)
                (p + Z.b2z (draw rand ap k)),
          S k).
Proof.
  intros Hwf Hcs Hin.
  destruct (wf_body_idx _ _ _ Hwf Hin) as [Hi _].
  destruct (Hcs _ _ Hin) as [w Hw].
  assert (<[body := set_cells b cs]> m !! body = Some (set_cells b cs)) as Hb
    by apply lookup_insert_eq.
  unfold random_cell. cbn [mem pop]. rewrite Hb.
  cbn [mbind option_bind cols set_cells].
  change (x * cols b + y) with (idx b x y).
  rewrite to_size_t_small by done.
  rewrite (store_cell _ _ _ _ _ w Hb) by (done || lia).
  cbn [mbind option_bind cells set_cells]. rewrite insert_insert_eq.
  unfold load. rewrite lookup_insert_eq. cbn [mbind option_bind cells set_cells].
  rewrite decide_True by lia.
  by rewrite list_lookup_insert_eq by (by apply lookup_lt_Some in Hw).
Qed.

Lemma random_loop rand ap body m b ps :
  wf_body b = true → Forall (λ p, in_grid b p.1 p.2 = true) ps →
  ∀ cs p k, holds_cells b cs →
    for_each (λ q, random_cell rand ap body q.1 q.2) ps
             (State (<[body := set_cells b cs]> m) p, k)
    = Some (State (<[body := set_cells b
                       (assign_all cs (random_writes rand ap b k ps))]> m)
                  (p + alive_writes (random_writes rand ap b k ps)),
            (k + length ps)%nat).
Proof.
  intros Hwf Hps. induction Hps as [|[x y] ps Hin _ IH]; intros cs p k Hcs.
  - simpl. by rewrite Z.add_0_r, Nat.add_0_r.
  - cbn [for_each fst snd]. simpl in Hin.
    rewrite (random_cell_step rand ap body m b) by done. cbn [mbind option_bind].
    rewrite IH by by apply holds_cells_insert.
    f_equal. f_equal; [|simpl; lia]. f_equal. unfold alive_writes. simpl. lia.
Qed.

Lemma elem_of_region b x y : (x, y) ∈ region b ↔ in_region b x y = true.
Proof.
  unfold region, in_region. rewrite elem_of_pairs, !elem_of_range.
  rewrite !andb_true_iff. lia.
Qed.

Lemma in_region_in_grid b x y :
  wf_body b = true → in_region b x y = true → in_grid b x y = true.
Proof.
  intros Hwf. destruct (wf_body_dims _ Hwf) as (Hr & Hc & _).
  unfold in_region. rewrite !andb_true_iff, in_grid_spec.
  intros [[[H1 H2] H3] H4].
  assert (0 ≤ cols b / 4) by (apply Z.div_pos; lia).
  assert (0 ≤ rows b / 4) by (apply Z.div_pos; lia).
  assert (3 * cols b / 4 ≤ cols b) by (apply Z.div_le_upper_bound; lia).
  assert (3 * rows b / 4 ≤ rows b) by (apply Z.div_le_upper_bound; lia).
  lia.
Qed.

(** The result of [random_mode] on a well-formed body. *)
Lemma random_mode_run rand ap body m p k b :
  m !! body = Some b → wf_body b = true →
  random_mode rand ap body (State m p, k)
  = Some (State (<[body := set_cells b
                     (assign_all (cells b) (random_writes rand ap b k (region b)))]> m)
                (p + alive_writes (random_writes rand ap b k (region b))),
          (k + length (region b))%nat).
Proof.
  intros Hb Hwf. destruct (wf_body_dims _ Hwf) as (Hr & Hc & _).
  unfold random_mode. cbn [fst mem]. rewrite Hb. cbn [mbind option_bind].
  rewrite !quarter_small, !three_quarters_small by done. cbn [mbind option_bind].
  rewrite for_each_nested. fold (region b).
  replace (State m p) with (State (<[body := set_cells b (cells b)]> m) p)
    by (by rewrite set_cells_cells, insert_id).
  apply (random_loop rand ap body m b (region b)); [done| |].
  - apply Forall_forall. intros [x y] H. apply elem_of_region in H.
    by apply in_region_in_grid.
  - by apply (wf_holds_cells b b).
Qed.

Lemma elem_of_random_writes rand ap b k ps w :
  w ∈ random_writes rand ap b k ps
  ↔ ∃ j x y, ps !! j = Some (x, y)
             ∧ w = (Z.to_nat (idx b x y), draw rand ap (k + j)).
Proof.
  revert k. induction ps as [|[x y] ps IH]; intros k; cbn [random_writes fst snd].
  - split; [by intros ?%elem_of_nil|by intros (j & ? & ? & ? & _)].
  - rewrite elem_of_cons, IH. split.
    + intros [->|(j & x' & y' & Hj & ->)].
      * exists O, x, y. by rewrite Nat.add_0_r.
      * exists (S j), x', y'. split; [done|]. f_equal. f_equal. lia.
    + intros ([|j] & x' & y' & Hj & ->); simplify_eq/=.
      * left. by rewrite Nat.add_0_r.
      * right. exists j, x', y'. split; [done|]. f_equal. f_equal. lia.
Qed.

Lemma alive_writes_none rand ap b k ps :
  (∀ j, draw rand ap j = false) → alive_writes (random_writes rand ap b k ps) = 0.
Proof.
  intros H. revert k. induction ps as [|q ps IH]; intros k; [done|].
  unfold alive_writes in *. simpl. by rewrite H, IH.
Qed.

Lemma alive_writes_all rand ap b k ps :
  (∀ j, draw rand ap j = true) →
  alive_writes (random_writes rand ap b k ps) = Z.of_nat (length ps).
Proof.
  intros H. revert k. induction ps as [|q ps IH]; intros k; [done|].
  unfold alive_writes in *. simpl length. simpl foldr. rewrite H, IH. simpl. lia.
Qed.

Lemma draw_never rand : (∀ j, 0 ≤ rand j) → ∀ j, draw rand 0 j = false.
Proof.
  intros H j. unfold draw. apply Z.leb_gt.
  pose proof (Z.rem_nonneg (rand j) 100 ltac:(lia) (H j)). lia.
Qed.

Lemma draw_always rand : (∀ j, 0 ≤ rand j) → ∀ j, draw rand 100 j = true.
Proof.
  intros H j. unfold draw. apply Z.leb_le.
  pose proof (Z.rem_bound_pos (rand j) 100 (H j) ltac:(lia)). lia.
Qed.

Lemma length_pairs (xs ys : list Z) :
  length (x ← xs; y ← ys; [(x, y)]) = (length xs * length ys)%nat.
Proof.
  induction xs as [|x xs IH]; [done|].
  change ((x :: xs) ≫= λ x, ys ≫= λ y, [(x, y)])
    with ((ys ≫= λ y, [(x, y)]) ++ (xs ≫= λ x, ys ≫= λ y, [(x, y)])).
  rewrite length_app, IH. simpl. f_equal.
  clear IH. induction ys as [|y ys IHy]; [done|].
  change ((y :: ys) ≫= λ y, [(x, y)]) with ((x, y) :: (ys ≫= λ y, [(x, y)])).
  simpl. by rewrite IHy.
Qed.

Lemma NoDup_pairs (xs ys : list Z) :
  NoDup xs → NoDup ys → NoDup (x ← xs; y ← ys; [(x, y)]).
Proof.
  intros Hxs Hys. apply NoDup_bind; [| |done].
  - intros x1 x2 [x y] _ _ H1 H2.
    apply list_elem_of_bind in H1 as (y1 & H1 & _).
    apply list_elem_of_bind in H2 as (y2 & H2 & _).
    apply list_elem_of_singleton in H1, H2. congruence.
  - intros x _. apply NoDup_bind; [| |done].
    + intros y1 y2 q _ _ H1 H2. apply list_elem_of_singleton in H1, H2. congruence.
    + intros y _. apply NoDup_singleton.
Qed.

(** Random seeding of a fresh square grid: [random_mode] returns; the cells
    outside the region stay dead; the cell of the [j]-th position of the
    region is alive exactly when its draw is at most [alive_prob]; with
    [alive_prob = 0] the population is 0 and with [alive_prob = 100] it is
    the number of positions of the region. *)
Lemma random_mode_square rand ap body m k b :
  m !! body = Some b → wf_body b = true → rows b = cols b → all_dead b = true →
  (∀ j, 0 ≤ rand j) →
  ∃ sk b',
    random_mode rand ap body (State m 0, k) = Some sk
    ∧ mem sk.1 !! body = Some b'
    ∧ (∀ x y, in_region b x y = false → alive_at b' x y = false)
    ∧ (∀ j x y, region b !! j = Some (x, y) →
         alive_at b' x y = draw rand ap (k + j))
    ∧ (ap = 0 → pop sk.1 = 0)
    ∧ (ap = 100 →
       pop sk.1 = (3 * cols b / 4 - cols b / 4) * (3 * rows b / 4 - rows b / 4)).
Proof.
  intros Hb Hwf Hsq Hdead Hrand.
  destruct (wf_body_dims _ Hwf) as (Hr & Hc & _).
  set (ws := random_writes rand ap b k (region b)).
  set (b' := set_cells b (assign_all (cells b) ws)).
  assert (∀ x y, in_grid b' x y = in_grid b x y) as Hgrid by done.
  assert (∀ x y,
            cell_at b' x y = mjoin (assign_all (cells b) ws !! Z.to_nat (idx b x y)))
    as Hcell by done.
  eexists _, b'. split; [by apply random_mode_run|]. cbn [fst mem pop].
  split; [by rewrite lookup_insert_eq|]. split; [|split; [|split]].
  - intros x y Hout. destruct (in_grid b x y) eqn:Hin;
      [|by apply alive_at_outside; rewrite Hgrid].
    apply (alive_at_cell b'); [by rewrite Hgrid|].
    rewrite Hcell, assign_all_lookup_other.
    + fold (cell_at b x y). destruct (wf_body_cell _ _ _ Hwf Hin) as [c Hc0].
      by rewrite Hc0, <- (alive_at_cell _ _ _ _ Hin Hc0), all_dead_at.
    + intros Hw. apply list_elem_of_fmap in Hw as (w & Hw1 & Hw).
      apply elem_of_random_writes in Hw as (j & x' & y' & Hj & ->).
      apply list_elem_of_lookup_2, elem_of_region in Hj.
      pose proof (in_region_in_grid _ _ _ Hwf Hj) as Hin'.
      destruct (wf_body_idx _ _ _ Hwf Hin) as [Hi _].
      destruct (wf_body_idx _ _ _ Hwf Hin') as [Hi' _]. simpl in Hw1.
      destruct (idx_inj_square b x y x' y') as [-> ->]; [done|done|done|lia|].
      congruence.
  - intros j x y Hj.
    pose proof (list_elem_of_lookup_2 _ _ _ Hj) as Hreg. apply elem_of_region in Hreg.
    pose proof (in_region_in_grid _ _ _ Hwf Hreg) as Hin.
    destruct (wf_body_idx _ _ _ Hwf Hin) as [Hi Hlt].
    destruct (assign_all_lookup (cells b) ws _ Hlt) as (w & Hw & Hwi & Hl).
    { apply list_elem_of_fmap. exists (Z.to_nat (idx b x y), draw rand ap (k + j)).
      split; [done|]. apply elem_of_random_writes. by exists j, x, y. }
    apply elem_of_random_writes in Hw as (j' & x' & y' & Hj' & ->).
    pose proof (list_elem_of_lookup_2 _ _ _ Hj') as Hreg'.
    apply elem_of_region in Hreg'.
    pose proof (in_region_in_grid _ _ _ Hwf Hreg') as Hin'.
    destruct (wf_body_idx _ _ _ Hwf Hin') as [Hi' _]. simpl in Hwi, Hl.
    destruct (idx_inj_square b x' y' x y) as [-> ->]; [done|done|done|lia|].
    assert (j' = j) as ->.
    { eapply NoDup_lookup; [|exact Hj'|exact Hj].
      apply NoDup_pairs; apply NoDup_seqZ. }
    apply (alive_at_cell b'); [by rewrite Hgrid|]. by rewrite Hcell, Hl.
  - intros ->. rewrite Z.add_0_l. by apply alive_writes_none, draw_never.
  - intros ->. rewrite Z.add_0_l, alive_writes_all by by apply draw_always.
    unfold region. rewrite length_pairs. unfold range. rewrite !length_seqZ.
    assert (cols b / 4 ≤ 3 * cols b / 4) by (apply Z.div_le_mono; lia).
    assert (rows b / 4 ≤ 3 * rows b / 4) by (apply Z.div_le_mono; lia).
    rewrite Nat2Z.inj_mul, !Z2Nat.id by lia. done.
Qed.

(** ** Pattern seeding *)

(** A data line with non-negative offsets whose target lies in the grid:
    the cell of the target is set alive and the population grows by one. *)
Lemma pattern_line_step body m b cs p dx dy :
  wf_body b = true → holds_cells b cs →
  0 ≤ dx ≤ INT_MAX → 0 ≤ dy ≤ INT_MAX →
  in_grid b (dx + cols b / 2) (dy + rows b / 2) = true →
  pattern_line body (export_line dx dy) (State (<[body := set_cells b cs]> m) p)
  = Some (State (<[body := set_cells b
                     (<[Z.to_nat (idx b (dx + cols b / 2) (dy + rows b / 2))
                        := Some true]> cs)]> m)
                (p + 1)).
Proof.
  intros Hwf Hcs Hdx Hdy Hin.
  destruct (wf_body_dims _ Hwf) as (Hr & Hc & _).
  destruct (wf_body_idx _ _ _ Hwf Hin) as [Hi _].
  destruct (Hcs _ _ Hin) as [w Hw].
  destruct (print_int_digits dx) as [Hdx1 Hdx2]; [lia|].
  destruct (print_int_digits dy) as [Hdy1 Hdy2]; [lia|].
  assert (<[body := set_cells b cs]> m !! body = Some (set_cells b cs)) as Hb
    by apply lookup_insert_eq.
  unfold pattern_line. cbn [mem pop]. rewrite Hb. cbn [mbind option_bind].
  rewrite export_line_line, chop_line. cbn [mbind option_bind].
  rewrite (proj1 (strtok_digits _ (print_int dy) Hdx1 Hdx2)).
  cbn [mbind option_bind cols rows set_cells].
  rewrite offset_coord_print by done. cbn [mbind option_bind].
  rewrite (proj2 (strtok_digits _ EmptyString Hdy1 Hdy2)).
  cbn [mbind option_bind].
  rewrite offset_coord_print by done. cbn [mbind option_bind].
  change ((dx + cols b / 2) * cols b + (dy + rows b / 2))
    with (idx b (dx + cols b / 2) (dy + rows b / 2)).
  rewrite to_size_t_small by done.
  rewrite (store_cell _ _ _ _ _ w Hb) by (done || lia).
  cbn [mbind option_bind cells set_cells]. by rewrite insert_insert_eq.
Qed.

Lemma pattern_loop body m b qs :
  wf_body b = true →
  Forall (λ q, 0 ≤ q.1 ≤ INT_MAX ∧ 0 ≤ q.2 ≤ INT_MAX
               ∧ in_grid b (q.1 + cols b / 2) (q.2 + rows b / 2) = true) qs →
  ∀ cs p, holds_cells b cs →
    for_each (pattern_line body) ((λ q, export_line q.1 q.2) <$> qs)
             (State (<[body := set_cells b cs]> m) p)
    = Some (State (<[body := set_cells b (assign_all cs (pattern_writes b qs))]> m)
                  (p + Z.of_nat (length qs))).
Proof.
  intros Hwf Hqs. induction Hqs as [|[dx dy] qs (Hx & Hy & Hin) _ IH]; intros cs p Hcs.
  - simpl. by rewrite Z.add_0_r.
  - cbn [fmap list_fmap for_each fst snd]. simpl in Hx, Hy, Hin.
    rewrite (pattern_line_step body m b) by done. cbn [mbind option_bind].
    rewrite IH by by apply holds_cells_insert.
    f_equal. f_equal. rewrite length_cons. lia.
Qed.

Lemma elem_of_pattern_writes b qs i :
  i ∈ (pattern_writes b qs).*1
  ↔ ∃ x y, (x, y) ∈ qs ∧ i = Z.to_nat (idx b (x + cols b / 2) (y + rows b / 2)).
Proof.
  unfold pattern_writes. rewrite <- list_fmap_compose, list_elem_of_fmap. split.
  - intros ([x y] & -> & Hq). by exists x, y.
  - intros (x & y & Hq & ->). by exists (x, y).
Qed.

Lemma pattern_writes_alive b qs w : w ∈ pattern_writes b qs → w.2 = true.
Proof.
  unfold pattern_writes. rewrite list_elem_of_fmap. by intros (q & -> & _).
Qed.

Lemma offsets_fit_Forall b qs :
  wf_body b = true → offsets_fit b qs = true →
  Forall (λ q, 0 ≤ q.1 ≤ INT_MAX ∧ 0 ≤ q.2 ≤ INT_MAX
               ∧ in_grid b (q.1 + cols b / 2) (q.2 + rows b / 2) = true) qs.
Proof.
  intros Hwf Hfit. destruct (wf_body_dims _ Hwf) as (Hr & Hc & _).
  unfold offsets_fit in Hfit. rewrite forallb_forall in Hfit.
  apply Forall_forall. intros q Hq. apply list_elem_of_In, Hfit in Hq.
  rewrite !andb_true_iff, !Z.leb_le in Hq. destruct Hq as [[Hx Hy] Hin].
  pose proof Hin as Hin'. apply in_grid_spec in Hin'.
  assert (0 ≤ cols b / 2) by (apply Z.div_pos; lia).
  assert (0 ≤ rows b / 2) by (apply Z.div_pos; lia).
  split; [lia|]. split; [lia|done].
Qed.

(** Where pattern seeding does what the specification says.  When the
    pattern file cannot be opened, [pattern_mode] returns NULL and leaves
    the grid and the population as they were.  When it opens, the first
    line is skipped, and for data lines as [export_body] prints them
    (decimal, newline at the end) whose targets
    [(dx + cols/2, dy + rows/2)] lie in the grid, [pattern_mode] returns
    the body, every target cell is alive, no other cell is changed, and the
    population has grown by one per data line. *)
Theorem pattern_mode_sets_offset_cells
    (body : ptr) (s : state) (b : body_t) (header : string) (qs : list (Z * Z)) :
  mem s !! body = Some b → wf_body b = true → offsets_fit b qs = true →
  pattern_mode None body s = Some (None, s)
  ∧ ∃ s' b',
      pattern_mode (Some (header :: ((λ q, export_line q.1 q.2) <$> qs))) body s
      = Some (Some body, s')
      ∧ mem s' !! body = Some b'
      ∧ pop s' = pop s + Z.of_nat (length qs)
      ∧ (∀ dx dy, (dx, dy) ∈ qs →
           cell_at b' (dx + cols b / 2) (dy + rows b / 2) = Some true)
      ∧ (∀ i, i ∉ (pattern_writes b qs).*1 → cells b' !! i = cells b !! i).
Proof.
  intros Hb Hwf Hfit. split; [done|]. destruct s as [m p]. cbn [mem pop] in *.
  pose proof (offsets_fit_Forall _ _ Hwf Hfit) as Hqs.
  exists (State (<[body := set_cells b (assign_all (cells b) (pattern_writes b qs))]> m)
                (p + Z.of_nat (length qs))),
         (set_cells b (assign_all (cells b) (pattern_writes b qs))).
  split.
  { unfold pattern_mode. cbn [tail].
    rewrite <- (insert_id m body b) at 1 by done.
    rewrite <- (set_cells_cells b) at 1.
    rewrite (pattern_loop body m b qs); [done|done|done|].
    by apply (wf_holds_cells b b). }
  cbn [mem pop]. split; [by rewrite lookup_insert_eq|]. split; [done|]. split.
  - intros dx dy Hq. rewrite Forall_forall in Hqs.
    destruct (Hqs _ Hq) as (_ & _ & Hin). simpl in Hin.
    destruct (wf_body_idx _ _ _ Hwf Hin) as [_ Hlt].
    destruct (assign_all_lookup (cells b) (pattern_writes b qs) _ Hlt)
      as (w & Hw & Hwi & Hl).
    { apply elem_of_pattern_writes. by exists dx, dy. }
    rewrite (pattern_writes_alive _ _ _ Hw) in Hl.
    unfold cell_at. cbn [cells set_cells].
    change (idx (set_cells b _) ?x ?y) with (idx b x y). by rewrite Hl.
  - intros i Hi. cbn [cells set_cells]. by apply assign_all_lookup_other.
Qed.

(** ** Export *)

Lemma export_cell_step body m b x y out :
  m !! body = Some b → wf_body b = true → in_grid b x y = true →
  export_cell body m x y out
  = Some (if alive_at b x y then out ++ [export_line x y] else out).
Proof.
  intros Hb Hwf Hin. destruct (wf_body_idx _ _ _ Hwf Hin) as [Hi _].
  unfold export_cell. rewrite Hb. cbn [mbind option_bind].
  change (x * cols b + y) with (idx b x y).
  rewrite to_size_t_small by done.
  by rewrite (load_alive _ _ _ _ _ Hb Hwf Hin).
Qed.

Lemma export_loop body m b ps :
  m !! body = Some b → wf_body b = true →
  Forall (λ p, in_grid b p.1 p.2 = true) ps →
  ∀ out,
    for_each (λ q, export_cell body m q.1 q.2) ps out
    = Some (out ++ ((λ p, export_line p.1 p.2)
                      <$> List.filter (λ p, alive_at b p.1 p.2) ps)).
Proof.
  intros Hb Hwf Hps. induction Hps as [|[x y] ps Hin _ IH]; intros out.
  - simpl. by rewrite app_nil_r.
  - cbn [for_each fst snd List.filter]. simpl in Hin.
    rewrite (export_cell_step body m b) by done. cbn [mbind option_bind].
    rewrite IH. destruct (alive_at b x y); [|done].
    by rewrite <- app_assoc.
Qed.

(** The export file of a well-formed body: the header and one line per
    alive position, in the order of the loops. *)
Lemma export_body_run body m b :
  m !! body = Some b → wf_body b = true →
  export_body true body m
  = Some (Some (line "x,y" :: ((λ p, export_line p.1 p.2) <$> alive_positions b))).
Proof.
  intros Hb Hwf. unfold export_body. rewrite Hb. cbn [mbind option_bind].
  rewrite for_each_nested.
  by rewrite (export_loop body m b (positions b)) by (done || apply Forall_positions).
Qed.

(** ** Export, then import *)

Lemma elem_of_alive_positions b x y :
  (x, y) ∈ alive_positions b ↔ alive_at b x y = true.
Proof.
  unfold alive_positions. rewrite list_elem_of_In, filter_In, <- list_elem_of_In.
  rewrite elem_of_positions. simpl. unfold alive_at.
  rewrite andb_true_iff. tauto.
Qed.

Lemma shift_fits_at b x y :
  shift_fits b = true → alive_at b x y = true →
  in_grid b (x + cols b / 2) (y + rows b / 2) = true.
Proof.
  unfold shift_fits. rewrite forallb_forall. intros H Ha.
  apply (H (x, y)), list_elem_of_In. by apply elem_of_alive_positions.
Qed.

Lemma length_filter_states (f : Z * Z → bool) (ps : list (Z * Z)) :
  Z.of_nat (length (List.filter f ps)) = foldr (λ p n, Z.b2z (f p) + n) 0 ps.
Proof.
  induction ps as [|p ps IH]; [done|]. cbn [List.filter foldr].
  rewrite <- IH. destruct (f p); cbn [length Z.b2z]; lia.
Qed.

(** On a square grid the alive cells are the alive positions. *)
Lemma population_square b :
  wf_body b = true → rows b = cols b →
  population b = Z.of_nat (length (alive_positions b)).
Proof.
  intros Hwf Hsq. unfold population, alive_positions.
  rewrite (cells_square b Hwf Hsq) at 1.
  by rewrite (population_states (λ p, alive_at b p.1 p.2)), length_filter_states.
Qed.

(** What export followed by import does.  Take a well-formed square grid
    whose alive positions, moved by half the dimensions, all lie in the
    grid.  Seeding a fresh
    all-dead grid of the same dimensions in pattern mode from the file
    [export_body] writes for it returns the seeded body, reports the
    number of alive cells of the exported grid as population, and leaves
    alive exactly the positions [(x + cols/2, y + rows/2)] for [(x, y)]
    alive in the exported grid. *)
Theorem export_then_import_translates
    (src dst : ptr) (m m' : heap) (g b0 : body_t) (f : option file) :
  m !! src = Some g → wf_body g = true → rows g = cols g →
  shift_fits g = true →
  m' !! dst = Some b0 → wf_body b0 = true → all_dead b0 = true →
  rows b0 = rows g → cols b0 = cols g →
  export_body true src m = Some f →
  ∃ s' b',
    pattern_mode f dst (State m' 0) = Some (Some dst, s')
    ∧ mem s' !! dst = Some b'
    ∧ pop s' = population g
    ∧ ∀ u v, alive_at b' u v = alive_at g (u - cols g / 2) (v - rows g / 2).
Proof.
  intros Hg Hwfg Hsq Hfit Hb0 Hwf0 Hdead Hr Hc Hexp.
  rewrite (export_body_run _ _ _ Hg Hwfg) in Hexp. injection Hexp as <-.
  destruct (wf_body_dims _ Hwfg) as (Hrg & Hcg & _).
  pose proof (wf_holds_cells b0 b0 Hwf0 eq_refl eq_refl) as Hcs.
  set (ws := pattern_writes b0 (alive_positions g)).
  exists (State (<[dst := set_cells b0 (assign_all (cells b0) ws)]> m')
                (0 + Z.of_nat (length (alive_positions g)))),
         (set_cells b0 (assign_all (cells b0) ws)).
  split.
  { unfold pattern_mode. cbn [tail].
    rewrite <- (insert_id m' dst b0) at 1 by done.
    rewrite <- (set_cells_cells b0) at 1.
    rewrite (pattern_loop dst m' b0 (alive_positions g)); [done|done| |done].
    apply Forall_forall. intros [x y] Ha. apply elem_of_alive_positions in Ha.
    pose proof (shift_fits_at _ _ _ Hfit Ha) as Hin.
    unfold alive_at in Ha. apply andb_true_iff in Ha as [Ha _].
    apply in_grid_spec in Ha. simpl. rewrite Hr, Hc.
    split; [lia|]. split; [lia|].
    apply in_grid_spec. apply in_grid_spec in Hin. lia. }
  cbn [mem pop]. split; [by rewrite lookup_insert_eq|].
  split; [by rewrite population_square|].
  intros u v.
  set (b' := set_cells b0 (assign_all (cells b0) ws)).
  assert (∀ x y, in_grid b' x y = in_grid g x y) as Hgrid.
  { intros x y. unfold in_grid, b'. cbn [rows cols set_cells]. by rewrite Hr, Hc. }
  assert (∀ x y, cell_at b' x y = mjoin (assign_all (cells b0) ws !! Z.to_nat (idx b0 x y)))
    as Hcell by done.
  destruct (in_grid g u v) eqn:Hin.
  - assert (in_grid b0 u v = true) as Hin0
      by (apply in_grid_spec; apply in_grid_spec in Hin; lia).
    destruct (wf_body_idx _ _ _ Hwf0 Hin0) as [Hi Hlt].
    destruct (decide (Z.to_nat (idx b0 u v) ∈ ws.*1)) as [Hw|Hw].
    + destruct (assign_all_lookup (cells b0) ws _ Hlt Hw) as (w & Hw1 & Hw2 & Hl).
      rewrite (pattern_writes_alive _ _ _ Hw1) in Hl.
      rewrite (alive_at_cell b' u v true); [|by rewrite Hgrid|by rewrite Hcell, Hl].
      apply elem_of_pattern_writes in Hw as (x & y & Ha & Hxy).
      apply elem_of_alive_positions in Ha.
      pose proof (shift_fits_at _ _ _ Hfit Ha) as Hin'.
      assert (in_grid b0 (x + cols b0 / 2) (y + rows b0 / 2) = true) as Hin0'.
      { rewrite Hr, Hc. apply in_grid_spec. apply in_grid_spec in Hin'. lia. }
      destruct (wf_body_idx _ _ _ Hwf0 Hin0') as [Hi' _].
      destruct (idx_inj_square b0 u v (x + cols b0 / 2) (y + rows b0 / 2))
        as [-> ->]; [congruence|done|done|lia|].
      rewrite Hr, Hc. by rewrite !Z.add_simpl_r.
    + rewrite (alive_at_cell b' u v false); [|by rewrite Hgrid|].
      * symmetry. apply not_true_is_false. intros Ha. apply Hw.
        apply elem_of_pattern_writes.
        exists (u - cols g / 2), (v - rows g / 2).
        split; [by apply elem_of_alive_positions|].
        rewrite Hr, Hc. do 2 f_equal; lia.
      * rewrite Hcell, (assign_all_lookup_other _ _ _ Hw). fold (cell_at b0 u v).
        destruct (wf_body_cell _ _ _ Hwf0 Hin0) as [c Hc0]. rewrite Hc0.
        by rewrite <- (alive_at_cell _ _ _ _ Hin0 Hc0), all_dead_at.
  - rewrite alive_at_outside by by rewrite Hgrid.
    symmetry. apply not_true_is_false. intros Ha.
    pose proof (shift_fits_at _ _ _ Hfit Ha) as Hin'.
    rewrite !Z.sub_add in Hin'. congruence.
Qed.

(** * Concrete grids *)

(** ** A grid of 3 rows and 2 columns

    [body_init (3, 2)] runs without touching memory it does not own, but
    positions (0,2) and (1,0) share the offset 2. *)

Lemma body_init_3x2 : body_init 3 2 = Some dead_3x2.
Proof. reflexivity. Qed.

(** The previous generation used below is what the interactive mode leaves
    after clicks on the cells (0,1), (1,1) and (1,2) and the space key. *)
Lemma seed_3x2 :
  (b ← body_init 3 2;
   inital_generation
     (SeedEnv "d" 50 (λ _, 0) None 10 10
              [[EvMouseLeft 5 15; EvMouseLeft 15 15]; []; [EvMouseLeft 15 25; EvKeySpace]])
     0%nat (State (<[1%nat := b]> {[0%nat := b]}) 0))
  = Some (Some 0%nat, State (mem gen_3x2) 3).
Proof. by vm_compute. Qed.

Lemma offsets_3x2_collide :
  in_grid prev_3x2 0 2 = true ∧ in_grid prev_3x2 1 0 = true
  ∧ idx prev_3x2 0 2 = idx prev_3x2 1 0.
Proof. by vm_compute. Qed.

(** C1, on a grid of 3 rows and 2 columns.  The specification has
    [compute_generation] leave in the next generation, at every position,
    the state the rule gives that position.  In [prev_3x2] the cell of
    position (0,2) is dead and has three alive neighbors, so the rule makes
    it alive; after [compute_generation] the cell of that position in the
    next generation is dead: the visit of position (1,0), dead with two
    alive neighbors, wrote the same slot later. *)
Theorem generation_3x2_birth_overwritten :
  wf_body prev_3x2 = true ∧ wf_body dead_3x2 = true
  ∧ in_grid prev_3x2 0 2 = true
  ∧ alive_at prev_3x2 0 2 = false
  ∧ alive_neighbors prev_3x2 0 2 = 3
  ∧ next_alive prev_3x2 0 2 = true
  ∧ (s ← compute_generation 1%nat 0%nat gen_3x2;
     b ← mem s !! 1%nat; cell_at b 0 2) = Some false.
Proof. by vm_compute. Qed.

(** C2, on a grid of 3 rows and 2 columns.  The specification has the
    population [compute_generation] reports equal the number of alive
    cells of the next generation; the call above reports 4 and leaves 3
    alive cells. *)
Theorem generation_3x2_population_off :
  (s ← compute_generation 1%nat 0%nat gen_3x2;
   b ← mem s !! 1%nat; Some (pop s, population b, cells b))
  = Some (4, 3, [Some false; Some true; Some false; Some true; Some true; None]).
Proof. by vm_compute. Qed.

(** On square grids a toggle is what the specification says, position by
    position: the position clicked changes state, every other position
    keeps its state, the population follows, and a second toggle restores
    the state. *)
Lemma toggle_square (body : ptr) (s : state) (b : body_t) (x y : Z) :
  mem s !! body = Some b → wf_body b = true → rows b = cols b →
  in_grid b x y = true →
  ∃ s1 b1,
    toggle body x y s = Some s1
    ∧ mem s1 !! body = Some b1
    ∧ alive_at b1 x y = negb (alive_at b x y)
    ∧ (∀ x' y', (x', y') ≠ (x, y) → alive_at b1 x' y' = alive_at b x' y')
    ∧ pop s1 = pop s + (if alive_at b1 x y then 1 else -1)
    ∧ toggle body x y s1 = Some s.
Proof.
  intros Hb Hwf Hsq Hin.
  destruct (toggle_flips_one_cell_and_twice_restores body s b x y Hb Hwf Hin)
    as (s1 & b1 & Hrun & Hb1 & Hc1 & Hother & Hpop & Hback).
  destruct s as [m p]. cbn [mem pop] in *.
  rewrite (toggle_run body m p b x y Hb Hwf Hin) in Hrun. injection Hrun as <-.
  cbn [mem] in Hb1. rewrite lookup_insert_eq in Hb1. injection Hb1 as <-.
  eexists _, _. split; [by apply toggle_run|]. cbn [mem pop].
  split; [apply lookup_insert_eq|].
  split; [by apply alive_at_cell|]. split; [|split; [exact Hpop|exact Hback]].
  intros x' y' Hne. unfold alive_at.
  change (in_grid (set_cells b ?l) x' y') with (in_grid b x' y').
  destruct (in_grid b x' y') eqn:Hin'; [|done]. cbn [andb]. f_equal.
  unfold cell_at. change (idx (set_cells b ?l) x' y') with (idx b x' y').
  rewrite Hother; [done|].
  destruct (wf_body_idx _ _ _ Hwf Hin) as [Hi _].
  destruct (wf_body_idx _ _ _ Hwf Hin') as [Hi' _].
  intros Heq. apply Hne.
  destruct (idx_inj_square b x' y' x y) as [-> ->]; [done|done|done|lia|done].
Qed.

(** C9, on a grid of 3 rows and 2 columns.  The specification has a
    toggle flip exactly the one cell of the position clicked.  With cells
    of 10 by 10 pixels a left click on the pixel (5, 25) is a toggle at
    position (0,2); in [prev_3x2] the cells of positions (0,2) and (1,0)
    are dead, and after the click both are alive: the two positions are
    stored at the same offset, [0 * 2 + 2 = 1 * 2 + 0].  The population
    grows by 1. *)
Theorem toggle_3x2_flips_two_positions :
  wf_body prev_3x2 = true
  ∧ in_grid prev_3x2 0 2 = true ∧ in_grid prev_3x2 1 0 = true
  ∧ click 10 10 0%nat 5 25 gen_3x2 = toggle 0%nat 0 2 gen_3x2
  ∧ (s1 ← click 10 10 0%nat 5 25 gen_3x2;
     b1 ← mem s1 !! 0%nat;
     Some (alive_at prev_3x2 0 2, alive_at b1 0 2,
           alive_at prev_3x2 1 0, alive_at b1 1 0,
           pop s1 - pop gen_3x2))
    = Some (false, true, false, true, 1).
Proof. by vm_compute. Qed.

(** ** Random seeding of a grid of 12 rows and 4 columns *)

(** C6, on a grid of 12 rows and 4 columns.  The specification has
    random seeding leave every cell outside the central region dead.  With
    [alive_prob = 100] on the body [body_init (12, 4)] the seeded region is
    x in [1,3), y in [3,9); the cell of position (3,0), outside the region,
    is alive afterwards (it is the cell of position (1,8)), and the
    population reported is 12 while 10 cells are alive. *)
Theorem random_12x4_outside_region_alive :
  quarter 4 = Some 1 ∧ three_quarters 4 = Some 3
  ∧ quarter 12 = Some 3 ∧ three_quarters 12 = Some 9
  ∧ (b ← body_init 12 4;
     sk ← random_mode (λ _, 0) 100 0%nat (State {[0%nat := b]} 0, 0%nat);
     b' ← mem sk.1 !! 0%nat;
     Some (wf_body b, cell_at b 3 0, cell_at b' 3 0, pop sk.1, population b'))
    = Some (true, Some false, Some true, 12, 10).
Proof. by vm_compute. Qed.

(** ** Pattern seeding of a grid of 4 rows and 4 columns *)

(** C3, for a pattern file that lists a coordinate twice.  The
    specification has every seeding report the number of alive cells of
    the grid it seeded; pattern seeding of a 4 x 4 grid from a file with
    the line [0,0] twice sets one cell alive and reports a population of
    2. *)
Theorem pattern_twice_population_off :
  (b ← body_init 4 4;
   r ← inital_generation
         (SeedEnv "p" 50 (λ _, 0) (Some pattern_twice) 10 10 [])
         0%nat (State {[0%nat := b]} 0);
   b' ← mem r.2 !! 0%nat;
   Some (r.1, cell_at b' 2 2, pop r.2, population b'))
  = Some (Some 0%nat, Some true, 2, 1).
Proof. by vm_compute. Qed.

(** C7, for data lines the specification allows.  The specification has
    pattern seeding set alive, for every data line ["<dx>,<dy>"] of signed
    integers, the cell at [(dx + cols/2, dy + rows/2)], and add 1 to the
    population.  On a 4 x 4 grid the line [-1,0] names the cell of position
    (1,2), a position of the grid.  Line 203 converts [atoi("-1")] to
    [size_t] before it adds [cols * 0.5]: the sum of 2^64 - 1 and 2 is
    taken in [double], where it is 2^64, and the conversion of that value
    back to [size_t] is not defined.  [pattern_mode] does not set the cell
    of (1,2).  A last line without a newline is lost as well: line 202
    drops the last character of every line, so the line [0,1], which names
    the cell of position (2,3), is read as [0,] and the second [strtok]
    returns NULL, which goes to [atoi]. *)
Theorem pattern_signed_offset_lost :
  (in_grid dead_4x4 (-1 + cols dead_4x4 / 2) (0 + rows dead_4x4 / 2) = true
   ∧ atoi "-1" = Some (-1)
   ∧ to_size_t (-1) = 2 ^ 64 - 1
   ∧ Double.add (Double.of_size_t (to_size_t (-1))) (half 4) = 4 * 2 ^ 64
   ∧ offset_coord "-1" 4 = None
   ∧ pattern_mode (Some pattern_left) 0%nat (State {[0%nat := dead_4x4]} 0) = None
   ∧ inital_generation (SeedEnv "p" 50 (λ _, 0) (Some pattern_left) 10 10 [])
                       0%nat (State {[0%nat := dead_4x4]} 0) = None)
  ∧ (in_grid dead_4x4 (0 + cols dead_4x4 / 2) (1 + rows dead_4x4 / 2) = true
     ∧ chop "0,1" = Some "0,"%string
     ∧ strtok comma "0," = Some ("0"%string, EmptyString)
     ∧ strtok comma EmptyString = None
     ∧ pattern_mode (Some pattern_open) 0%nat (State {[0%nat := dead_4x4]} 0) = None).
Proof. by vm_compute. Qed.

(** A target outside the grid is not checked for either: for the data line
    [2,2] on a 4 x 4 grid the target (4,4) is no position of the grid, and
    the assignment addresses offset 20 of an array of 16. *)
Lemma pattern_offsets_lost :
  offset_coord "2" 4 = Some 4
  ∧ pattern_mode (Some pattern_far) 0%nat (State {[0%nat := dead_4x4]} 0) = None.
Proof. by vm_compute. Qed.

Lemma pattern_mode_sets_offset_cells_witness :
  pattern_mode None 0%nat (State {[0%nat := dead_4x4]} 0)
  = Some (None, State {[0%nat := dead_4x4]} 0)
  ∧ ∃ s' b',
      pattern_mode (Some (line "x,y" :: ((λ q, export_line q.1 q.2) <$> [(0, 1); (1, 0)])))
                   0%nat (State {[0%nat := dead_4x4]} 0)
      = Some (Some 0%nat, s')
      ∧ mem s' !! 0%nat = Some b'
      ∧ pop s' = 0 + Z.of_nat (length [(0, 1); (1, 0)])
      ∧ (∀ dx dy, (dx, dy) ∈ [(0, 1); (1, 0)] →
           cell_at b' (dx + cols dead_4x4 / 2) (dy + rows dead_4x4 / 2) = Some true)
      ∧ (∀ i, i ∉ (pattern_writes dead_4x4 [(0, 1); (1, 0)]).*1 →
           cells b' !! i = cells dead_4x4 !! i).
Proof.
  apply (pattern_mode_sets_offset_cells 0%nat (State {[0%nat := dead_4x4]} 0)
           dead_4x4 (line "x,y") [(0, 1); (1, 0)]); reflexivity.
Defined.

(** ** Grids too narrow for three neighbors *)

(** C4 without the bound on the dimensions fails on grids with a single
    row or column: the corner of the 1 x 1 grid has no neighbor, and the
    middle cell of a grid of one column, an edge cell that is no corner,
    has two. *)
Lemma all_alive_narrow_counts :
  (wf_body alive_1x1 = true ∧ all_alive alive_1x1 = true
   ∧ neighbors 0%nat {[0%nat := alive_1x1]} 0 0 = Some 0
   ∧ neighbors 0%nat {[0%nat := alive_1x1]} 0 0 ≠ Some 3)
  ∧ (wf_body alive_3x1 = true ∧ all_alive alive_3x1 = true
     ∧ in_grid alive_3x1 0 1 = true
     ∧ on_edge alive_3x1 0 1 = true ∧ is_corner alive_3x1 0 1 = false
     ∧ neighbors 0%nat {[0%nat := alive_3x1]} 0 1 = Some 2
     ∧ neighbors 0%nat {[0%nat := alive_3x1]} 0 1 ≠ Some 5).
Proof. by vm_compute. Qed.

(** ** The general statements at sample grids *)

Lemma neighbors_refines_direct_count_witness :
  neighbors 0%nat (mem gen_3x2) 0 2 = Some (alive_neighbors prev_3x2 0 2).
Proof.
  apply (neighbors_refines_direct_count (mem gen_3x2) 0%nat prev_3x2 0 2);
    reflexivity.
Defined.

Lemma compute_generation_overwrites_next_keeps_prev_witness :
  ∃ s' bn',
    compute_generation 1%nat 0%nat gen_3x2 = Some s'
    ∧ mem s' !! 0%nat = Some prev_3x2
    ∧ mem s' !! 1%nat = Some bn'
    ∧ rows bn' = rows dead_3x2 ∧ cols bn' = cols dead_3x2
    ∧ ∀ x y, in_grid dead_3x2 x y = true →
        ∃ x' y', in_grid prev_3x2 x' y' = true
                 ∧ idx prev_3x2 x' y' = idx prev_3x2 x y
                 ∧ cell_at bn' x y = Some (next_alive prev_3x2 x' y').
Proof.
  apply (compute_generation_overwrites_next_keeps_prev
           1%nat 0%nat gen_3x2 prev_3x2 dead_3x2);
    [lia|reflexivity..].
Defined.

Lemma toggle_flips_one_cell_and_twice_restores_witness :
  ∃ s1 b1,
    toggle 0%nat 0 2 gen_3x2 = Some s1
    ∧ mem s1 !! 0%nat = Some b1
    ∧ cell_at b1 0 2 = Some (negb (alive_at prev_3x2 0 2))
    ∧ (∀ i, i ≠ Z.to_nat (idx prev_3x2 0 2) → cells b1 !! i = cells prev_3x2 !! i)
    ∧ pop s1 = pop gen_3x2 + (if alive_at b1 0 2 then 1 else -1)
    ∧ toggle 0%nat 0 2 s1 = Some gen_3x2.
Proof.
  apply (toggle_flips_one_cell_and_twice_restores 0%nat gen_3x2 prev_3x2 0 2);
    reflexivity.
Defined.

Lemma all_alive_corner_and_edge_counts_witness :
  neighbors 0%nat {[0%nat := alive_2x2]} 0 0 = Some 3
  ∧ ∀ x y, in_grid alive_2x2 x y = true → on_edge alive_2x2 x y = true →
           is_corner alive_2x2 x y = false →
           neighbors 0%nat {[0%nat := alive_2x2]} x y = Some 5.
Proof.
  apply (all_alive_corner_and_edge_counts {[0%nat := alive_2x2]} 0%nat alive_2x2);
    [reflexivity|reflexivity|reflexivity|simpl; lia|simpl; lia].
Defined.

(** ** Export and import of a grid of 4 rows and 4 columns *)

(** C8, on grids of 4 rows and 4 columns.  The specification has export
    followed by import reproduce the set of alive coordinates.
    [export_body] writes the header and the line format [pattern_mode]
    reads, with the coordinates of the alive positions as they are;
    [pattern_mode] adds half the dimensions to every coordinate it reads.
    The export of the grid whose only alive cell is at (0,0) lists [0,0],
    and seeding a fresh grid from that file sets the cell of (2,2) alive
    and no other; for the grid whose only alive cell is at (3,3) the
    seeding writes outside the array.  (On a grid that is not square
    positions share cells on top: for 5 rows and 2 columns and the cell of
    (0,0) alive, the seeding sets the cell of (1,2), which is also the cell
    of (0,4).) *)
Theorem export_import_moves :
  (alive_positions corner_4x4 = [(0, 0)]
   ∧ (r ← export_import (State (<[1%nat := dead_4x4]> {[0%nat := corner_4x4]}) 0);
      b ← mem r.2 !! 1%nat; Some (alive_positions b)) = Some [(2, 2)])
  ∧ (alive_positions far_4x4 = [(3, 3)]
     ∧ export_body true 0%nat {[0%nat := far_4x4]}
       = Some (Some [line "x,y"; line "3,3"])
     ∧ export_import (State (<[1%nat := dead_4x4]> {[0%nat := far_4x4]}) 0) = None)
  ∧ (body_init 5 2 = Some dead_5x2
     ∧ wf_body corner_5x2 = true ∧ shift_fits corner_5x2 = true
     ∧ alive_positions corner_5x2 = [(0, 0)]
     ∧ (r ← export_import (State (<[1%nat := dead_5x2]> {[0%nat := corner_5x2]}) 0);
        b ← mem r.2 !! 1%nat; Some (alive_positions b)) = Some [(0, 4); (1, 2)]).
Proof. by vm_compute. Qed.

Lemma export_then_import_translates_witness :
  ∃ s' b',
    pattern_mode (Some [line "x,y"; line "0,0"]) 1%nat
                 (State (<[1%nat := dead_4x4]> {[0%nat := corner_4x4]}) 0)
    = Some (Some 1%nat, s')
    ∧ mem s' !! 1%nat = Some b'
    ∧ pop s' = population corner_4x4
    ∧ ∀ u v, alive_at b' u v
             = alive_at corner_4x4 (u - cols corner_4x4 / 2) (v - rows corner_4x4 / 2).
Proof.
  apply (export_then_import_translates 0%nat 1%nat
           (<[1%nat := dead_4x4]> {[0%nat := corner_4x4]})
           (<[1%nat := dead_4x4]> {[0%nat := corner_4x4]})
           corner_4x4 dead_4x4); reflexivity.
Defined.

(** * Further properties of [cell.c] *)

(** ** Loops that fail, loops that keep an invariant *)

Lemma for_each_invariant {A S} (I : S → Prop) (f : A → S → option S) l :
  (∀ a s1 s2, a ∈ l → I s1 → f a s1 = Some s2 → I s2) →
  ∀ s s', I s → for_each f l s = Some s' → I s'.
Proof.
  induction l as [|a l IH]; intros Hstep s s' Hs; cbn [for_each].
  - by intros [= <-].
  - destruct (f a s) as [s1|] eqn:Hf; [|done]. cbn [mbind option_bind].
    apply IH.
    + intros b s2 s3 Hb. apply Hstep. by apply elem_of_cons; right.
    + eapply Hstep; [|done..]. by apply elem_of_cons; left.
Qed.

Lemma for_each_fails {A S} (I : S → Prop) (f : A → S → option S) l a :
  a ∈ l →
  (∀ b s1 s2, I s1 → f b s1 = Some s2 → I s2) →
  (∀ s1, I s1 → f a s1 = None) →
  ∀ s, I s → for_each f l s = None.
Proof.
  intros Ha Hstep Hfail. induction l as [|b l IH]; intros s Hs.
  - by apply elem_of_nil in Ha.
  - cbn [for_each]. apply elem_of_cons in Ha as [<-|Ha].
    + by rewrite Hfail.
    + destruct (f b s) as [s1|] eqn:Hf; [|done]. cbn [mbind option_bind].
      apply IH; [done|]. by eapply Hstep.
Qed.

(** ** body_init *)

Lemma population_assign_dead cs ws :
  Forall (λ c, c ≠ Some true) cs → Forall (λ w, w.2 = false) ws →
  Forall (λ c, c ≠ Some true) (assign_all cs ws).
Proof.
  intros Hcs Hws. revert cs Hcs. induction Hws as [|w ws Hw _ IH]; intros cs Hcs; [done|].
  apply (IH (<[w.1 := Some w.2]> cs)).
  apply Forall_insert; [done|]. by rewrite Hw.
Qed.

Lemma population_none b :
  Forall (λ c, c ≠ Some true) (cells b) → population b = 0.
Proof.
  unfold population. intros H. induction H as [|c cs Hc _ IH]; [done|].
  cbn [List.filter]. by rewrite bool_decide_eq_false_2.
Qed.

(** X1. For a grid at least as high as it is wide, with dimensions and
    cell count within [int], [body_init] returns a body of these
    dimensions that is well formed and whose cells are all dead: no cell
    is alive, at no position and in no slot. *)
Theorem body_init_returns_dead_grid (r c : Z) :
  0 ≤ r ≤ INT_MAX → 0 ≤ c ≤ INT_MAX → r * c ≤ INT_MAX → c ≤ r →
  ∃ b, body_init r c = Some b
       ∧ rows b = r ∧ cols b = c
       ∧ wf_body b = true ∧ all_dead b = true ∧ population b = 0.
Proof.
  intros Hr Hc Hrc Hcr.
  destruct (body_init_fresh r c Hr Hc Hrc Hcr) as (Hinit & Hwf & Hdead).
  exists (fresh_body r c). repeat split; try done.
  apply population_none. cbn [cells fresh_body].
  apply population_assign_dead.
  - apply Forall_forall. intros o Ho. by apply elem_of_replicate in Ho as [-> _].
  - apply Forall_forall. intros w Hw. unfold init_writes in Hw.
    by apply list_elem_of_fmap in Hw as (q & -> & _).
Qed.

Lemma body_init_returns_dead_grid_witness :
  ∃ b, body_init 5 3 = Some b
       ∧ rows b = 5 ∧ cols b = 3
       ∧ wf_body b = true ∧ all_dead b = true ∧ population b = 0.
Proof.
  apply (body_init_returns_dead_grid 5 3); unfold INT_MAX; lia.
Defined.

(** X2. For a grid wider than it is high [body_init] writes past the end of
    the array it allocated: with [1 <= rows < cols] the slot of position
    [(cols - 1, rows - 1)] lies at offset [(cols - 1) * cols + rows - 1],
    beyond [rows * cols - 1]. *)
Theorem body_init_overflows_wide_grid (r c : Z) :
  1 ≤ r → r < c → c ≤ INT_MAX → r * c ≤ INT_MAX →
  r * c ≤ (c - 1) * c + (r - 1) ∧ body_init r c = None.
Proof.
  intros Hr Hrc Hc Hcells. split; [nia|].
  unfold body_init.
  replace (to_size_t (to_size_t (r * c) * 8) / 8) with (r * c).
  2:{ assert (0 ≤ r * c) by nia.
      rewrite (to_size_t_small (r * c)) by lia. unfold to_size_t.
      rewrite Z.mod_small by (unfold INT_MAX in *; lia). by rewrite Z.div_mul. }
  rewrite for_each_nested. fold (grid r c).
  rewrite (for_each_fails (λ cs, length cs = Z.to_nat (r * c))
             (λ q, init_slot c q.1 q.2) (grid r c) (c - 1, r - 1)); [done| | | |].
  - unfold grid. rewrite elem_of_pairs, !elem_of_range. lia.
  - intros [x y] s1 s2 Hs1. unfold init_slot. case_decide; [|done].
    intros [= <-]. by rewrite length_insert.
  - intros s1 Hs1. unfold init_slot. cbn [fst snd].
    rewrite decide_False; [done|]. rewrite Hs1. unfold to_size_t.
    rewrite Z.mod_small by (unfold INT_MAX in *; nia). nia.
  - by rewrite length_replicate.
Qed.

Lemma body_init_overflows_wide_grid_witness :
  2 * 3 ≤ (3 - 1) * 3 + (2 - 1) ∧ body_init 2 3 = None.
Proof.
  apply (body_init_overflows_wide_grid 2 3); unfold INT_MAX; lia.
Defined.

(** ** compute_generation *)

Lemma rule_life c n : rule c n = life c n.
Proof.
  unfold rule, life.
  destruct c, (Z.ltb_spec n 2), (Z.ltb_spec 3 n), (Z.eqb_spec n 3), (Z.eqb_spec n 2);
    simpl; try reflexivity; lia.
Qed.

(** X3. On square grids [compute_generation] is one step of Conway's Life:
    called on two distinct well-formed bodies of the same dimensions it
    leaves the previous generation as it was, makes the cell of every
    position alive exactly when the position had three alive neighbors, or
    was alive and had two, and reports the number of alive cells of the
    next generation. *)
Theorem compute_generation_square_life
    (new old : ptr) (s : state) (bo bn : body_t) :
  new ≠ old → mem s !! old = Some bo → mem s !! new = Some bn →
  wf_body bo = true → wf_body bn = true →
  rows bn = rows bo → cols bn = cols bo → rows bo = cols bo →
  ∃ s' bn',
    compute_generation new old s = Some s'
    ∧ mem s' !! old = Some bo
    ∧ mem s' !! new = Some bn'
    ∧ (∀ x y, in_grid bo x y = true →
         cell_at bn' x y = Some (life (alive_at bo x y) (alive_neighbors bo x y)))
    ∧ pop s' = population bn'.
Proof.
  intros Hne Hold Hnew Hwfo Hwfn Hr Hc Hsq.
  destruct (compute_generation_square new old s bo bn)
    as (s' & bn' & Hrun & Ho & Hn & Hcells & Hpop); try done.
  exists s', bn'. repeat split; try done.
  intros x y Hin. rewrite (Hcells x y Hin). unfold next_alive. by rewrite rule_life.
Qed.

Lemma compute_generation_square_life_witness :
  ∃ s' bn',
    compute_generation 1%nat 0%nat
      (State (<[1%nat := dead_4x4]> {[0%nat := corner_4x4]}) 7) = Some s'
    ∧ mem s' !! 0%nat = Some corner_4x4
    ∧ mem s' !! 1%nat = Some bn'
    ∧ (∀ x y, in_grid corner_4x4 x y = true →
         cell_at bn' x y
         = Some (life (alive_at corner_4x4 x y) (alive_neighbors corner_4x4 x y)))
    ∧ pop s' = population bn'.
Proof.
  apply (compute_generation_square_life 1%nat 0%nat
           (State (<[1%nat := dead_4x4]> {[0%nat := corner_4x4]}) 7)
           corner_4x4 dead_4x4); [lia|reflexivity..].
Defined.

Lemma all_dead_next b x y : all_dead b = true → next_alive b x y = false.
Proof.
  intros Hdead. unfold next_alive, alive_neighbors.
  rewrite (all_dead_at b x y Hdead).
  replace (List.filter _ around) with (@nil (Z * Z)); [done|].
  symmetry. unfold around. cbn [List.filter fst snd].
  by rewrite !(all_dead_at b _ _ Hdead).
Qed.

Lemma written_alive_bounds bo ps :
  0 ≤ written_alive bo ps ≤ Z.of_nat (length ps).
Proof.
  unfold written_alive. induction ps as [|p ps IH]; [done|].
  cbn [foldr length]. destruct (next_alive bo p.1 p.2); simpl Z.b2z; lia.
Qed.

Lemma length_positions b :
  0 ≤ rows b → 0 ≤ cols b → Z.of_nat (length (positions b)) = rows b * cols b.
Proof.
  intros Hr Hc. unfold positions, grid. rewrite length_pairs.
  unfold range. rewrite !length_seqZ. lia.
Qed.

(** X4. A dead grid stays dead, on grids of any dimensions: from a
    previous generation without alive cells [compute_generation] leaves a
    next generation without alive cells, whatever it held before, and
    reports a population of 0. *)
Theorem compute_generation_dead_stays_dead
    (new old : ptr) (s : state) (bo bn : body_t) :
  new ≠ old → mem s !! old = Some bo → mem s !! new = Some bn →
  wf_body bo = true → wf_body bn = true →
  rows bn = rows bo → cols bn = cols bo → all_dead bo = true →
  ∃ s' bn',
    compute_generation new old s = Some s'
    ∧ mem s' !! new = Some bn'
    ∧ all_dead bn' = true
    ∧ pop s' = 0.
Proof.
  intros Hne Hold Hnew Hwfo Hwfn Hr Hc Hdead. destruct s as [m p]. cbn [mem] in *.
  pose proof (wf_holds_cells bo bn Hwfn Hr Hc) as Hcs.
  eexists _, _. split; [by apply compute_generation_run|]. cbn [mem pop].
  split; [by rewrite lookup_insert_eq|]. split.
  - unfold all_dead. apply forallb_forall. intros [x y] Hp.
    apply list_elem_of_In in Hp.
    assert (in_grid bo x y = true) as Hin.
    { apply elem_of_positions in Hp. apply in_grid_spec in Hp.
      cbn [rows cols set_cells] in Hp. apply in_grid_spec. lia. }
    destruct (write_next_lookup bo (cells bn) x y Hwfo Hcs Hin)
      as (x' & y' & _ & _ & Hl).
    rewrite (all_dead_next bo x' y' Hdead) in Hl.
    apply negb_true_iff. cbn [fst snd].
    apply (alive_at_cell _ x y false).
    + apply in_grid_spec. apply in_grid_spec in Hin. cbn [rows cols set_cells]. lia.
    + unfold cell_at.
      replace (idx (set_cells bn _) x y) with (idx bo x y)
        by (unfold idx; cbn [cols set_cells]; by rewrite Hc).
      cbn [cells set_cells]. by rewrite Hl.
  - unfold written_alive. induction (positions bo) as [|q ps IH]; [done|].
    cbn [foldr]. by rewrite (all_dead_next bo _ _ Hdead), IH.
Qed.

Lemma compute_generation_dead_stays_dead_witness :
  ∃ s' bn',
    compute_generation 0%nat 1%nat gen_3x2 = Some s'
    ∧ mem s' !! 0%nat = Some bn'
    ∧ all_dead bn' = true
    ∧ pop s' = 0.
Proof.
  apply (compute_generation_dead_stays_dead 0%nat 1%nat gen_3x2 dead_3x2 prev_3x2);
    [lia|reflexivity..].
Defined.

(** X5. On grids of any dimensions the population [compute_generation]
    reports lies between 0 and [rows * cols], whatever the counter held
    before the call. *)
Theorem compute_generation_population_bounds
    (new old : ptr) (s : state) (bo bn : body_t) :
  new ≠ old → mem s !! old = Some bo → mem s !! new = Some bn →
  wf_body bo = true → wf_body bn = true →
  rows bn = rows bo → cols bn = cols bo →
  ∃ s', compute_generation new old s = Some s'
        ∧ 0 ≤ pop s' ≤ rows bo * cols bo.
Proof.
  intros Hne Hold Hnew Hwfo Hwfn Hr Hc. destruct s as [m p]. cbn [mem] in *.
  pose proof (wf_holds_cells bo bn Hwfn Hr Hc) as Hcs.
  destruct (wf_body_dims _ Hwfo) as (Hro & Hco & _).
  eexists. split; [by apply compute_generation_run|]. cbn [pop].
  pose proof (written_alive_bounds bo (positions bo)) as H.
  rewrite length_positions in H by lia. done.
Qed.

Lemma compute_generation_population_bounds_witness :
  ∃ s', compute_generation 1%nat 0%nat gen_3x2 = Some s'
        ∧ 0 ≤ pop s' ≤ rows prev_3x2 * cols prev_3x2.
Proof.
  apply (compute_generation_population_bounds 1%nat 0%nat gen_3x2 prev_3x2 dead_3x2);
    [lia|reflexivity..].
Defined.

(** ** What the functions leave alone *)

Lemma frame_refl body m : frame body m m.
Proof. intros q. by case_decide. Qed.

Lemma frame_trans body m1 m2 m3 :
  frame body m1 m2 → frame body m2 m3 → frame body m1 m3.
Proof.
  intros H12 H23 q. specialize (H12 q). specialize (H23 q).
  case_decide; congruence.
Qed.

Lemma store_frame p i v m m' : store p i v m = Some m' → frame p m m'.
Proof.
  unfold store. destruct (m !! p) as [b|] eqn:Hb; [|done]. cbn [mbind option_bind].
  destruct (load p i m); [|done]. cbn [mbind option_bind]. intros [= <-] q.
  case_decide as Hq.
  - subst q. rewrite lookup_insert_eq, Hb. cbn [fmap option_fmap option_map].
    unfold shape. cbn [rows cols cells set_cells]. by rewrite length_insert.
  - by rewrite lookup_insert_ne.
Qed.

Lemma generation_cell_frame new old x y s s' :
  generation_cell new old x y s = Some s' → frame new (mem s) (mem s').
Proof.
  unfold generation_cell. destruct (mem s !! old) as [bo|]; [|done].
  cbn [mbind option_bind]. destruct (neighbors old (mem s) x y); [|done].
  cbn [mbind option_bind]. destruct (load old _ (mem s)); [|done].
  cbn [mbind option_bind].
  destruct (store new _ _ (mem s)) as [m'|] eqn:Hst; [|done].
  cbn [mbind option_bind]. destruct (load new _ m'); [|done].
  intros [= <-]. by eapply store_frame.
Qed.

(** X6. Whenever [compute_generation] returns, also when the two bodies
    are one and the same or are not well formed, it has changed nothing
    but alive flags of [body_new]: every other body is as it was, and
    [body_new] has kept its dimensions and its array length. *)
Theorem compute_generation_frame (new old : ptr) (s s' : state) :
  compute_generation new old s = Some s' → frame new (mem s) (mem s').
Proof.
  unfold compute_generation. destruct (mem s !! old) as [bo|]; [|done].
  cbn [mbind option_bind]. rewrite for_each_nested.
  apply (for_each_invariant (λ s1, frame new (mem s) (mem s1))).
  - intros [x y] s1 s2 _ H1 Hstep.
    eapply frame_trans; [exact H1|]. by eapply generation_cell_frame.
  - apply frame_refl.
Qed.

Lemma compute_generation_frame_witness :
  frame 0%nat (mem gen_3x2) (mem inplace_3x2).
Proof.
  apply (compute_generation_frame 0%nat 0%nat gen_3x2 inplace_3x2).
  by vm_compute.
Defined.

Lemma toggle_frame body x y s s' :
  toggle body x y s = Some s' → frame body (mem s) (mem s').
Proof.
  unfold toggle. destruct (mem s !! body) as [bo|]; [|done].
  cbn [mbind option_bind]. destruct (load body _ (mem s)); [|done].
  cbn [mbind option_bind].
  destruct (store body _ _ (mem s)) as [m'|] eqn:Hst; [|done].
  cbn [mbind option_bind]. destruct (load body _ m'); [|done].
  intros [= <-]. by eapply store_frame.
Qed.

Lemma drain_frame w h body evs :
  ∀ cap s d, drain w h body evs cap s = Some d →
    match d with Stopped s' | Polled _ s' => frame body (mem s) (mem s') end.
Proof.
  induction evs as [|ev evs IH]; intros cap s d; cbn [drain].
  - intros [= <-]. apply frame_refl.
  - destruct ev; try (by apply IH); try (intros [= <-]; apply frame_refl).
    unfold click. destruct (decide (w = 0 ∨ h = 0)); [done|].
    destruct (toggle body (mx ÷ w) (my ÷ h) s) as [s1|] eqn:Ht; [|done].
    cbn [mbind option_bind]. intros Hd. specialize (IH _ _ _ Hd).
    pose proof (toggle_frame _ _ _ _ _ Ht) as H1.
    destruct d; by eapply frame_trans.
Qed.

Lemma drawing_mode_frame w h body queue :
  ∀ s r s', drawing_mode w h body queue s = Some (r, s') →
            frame body (mem s) (mem s').
Proof.
  induction queue as [|evs queue IH]; intros s r s'; cbn [drawing_mode]; [done|].
  destruct (drain w h body evs true s) as [d|] eqn:Hd; [|done].
  pose proof (drain_frame _ _ _ _ _ _ _ Hd) as Hd'.
  cbn [mbind option_bind]. destruct d as [s1|[|] s1].
  - by intros [= _ <-].
  - intros H. eapply frame_trans; [exact Hd'|]. by eapply IH.
  - by intros [= _ <-].
Qed.

Lemma pattern_line_frame body point s s' :
  pattern_line body point s = Some s' → frame body (mem s) (mem s').
Proof.
  unfold pattern_line. destruct (mem s !! body) as [bo|]; [|done].
  cbn [mbind option_bind]. destruct (chop point) as [p|]; [|done].
  cbn [mbind option_bind]. destruct (strtok comma p) as [[t1 rest]|]; [|done].
  cbn [mbind option_bind]. destruct (offset_coord t1 (cols bo)) as [x|]; [|done].
  cbn [mbind option_bind]. destruct (strtok comma rest) as [[t2 rest2]|]; [|done].
  cbn [mbind option_bind]. destruct (offset_coord t2 (rows bo)) as [y|]; [|done].
  cbn [mbind option_bind].
  destruct (store body _ _ (mem s)) as [m'|] eqn:Hst; [|done].
  intros [= <-]. by eapply store_frame.
Qed.

Lemma pattern_mode_frame f body s r s' :
  pattern_mode f body s = Some (r, s') → frame body (mem s) (mem s').
Proof.
  unfold pattern_mode. destruct f as [lines|]; [|intros [= _ <-]; apply frame_refl].
  destruct (for_each (pattern_line body) (tail lines) s) as [s1|] eqn:Hl; [|done].
  intros [= _ <-]. revert Hl.
  apply (for_each_invariant (λ s1, frame body (mem s) (mem s1))); [|apply frame_refl].
  intros point s2 s3 _ H2 Hstep.
  eapply frame_trans; [exact H2|]. by eapply pattern_line_frame.
Qed.

Lemma random_cell_frame rand ap body x y sk sk' :
  random_cell rand ap body x y sk = Some sk' → frame body (mem sk.1) (mem sk'.1).
Proof.
  destruct sk as [s k]. unfold random_cell. cbn [fst].
  destruct (mem s !! body) as [bo|]; [|done]. cbn [mbind option_bind].
  destruct (store body _ _ (mem s)) as [m'|] eqn:Hst; [|done].
  cbn [mbind option_bind]. destruct (load body _ m'); [|done].
  intros [= <-]. by eapply store_frame.
Qed.

Lemma random_mode_frame rand ap body sk sk' :
  random_mode rand ap body sk = Some sk' → frame body (mem sk.1) (mem sk'.1).
Proof.
  unfold random_mode. destruct (mem sk.1 !! body) as [bo|]; [|done].
  cbn [mbind option_bind]. destruct (quarter (cols bo)); [|done].
  cbn [mbind option_bind]. destruct (three_quarters (cols bo)); [|done].
  cbn [mbind option_bind]. destruct (quarter (rows bo)); [|done].
  cbn [mbind option_bind]. destruct (three_quarters (rows bo)); [|done].
  cbn [mbind option_bind]. rewrite for_each_nested.
  apply (for_each_invariant (λ sk1, frame body (mem sk.1) (mem sk1.1)));
    [|apply frame_refl].
  intros [x y] s2 s3 _ H2 Hstep.
  eapply frame_trans; [exact H2|]. by eapply random_cell_frame.
Qed.

(** X7. Whenever [inital_generation] returns, in any mode and with the
    body or with NULL, every body other than the one it was given is as it
    was, and the body it was given has kept its rows, its cols and the
    length of its array: no mode allocates, frees or resizes.  (What
    happens inside the cells of the body is not part of this statement: the
    alive flags change in every mode, and in drawing mode [draw_generation]
    also stores the rectangles.) *)
Theorem inital_generation_frame (e : seed_env) (body : ptr) (s : state)
    (r : option ptr) (s' : state) :
  inital_generation e body s = Some (r, s') → frame body (mem s) (mem s').
Proof.
  unfold inital_generation.
  destruct (Ascii.eqb (mode e) "r").
  { destruct (random_mode _ _ body _) as [sk|] eqn:Hr; [|done].
    intros [= _ <-]. by apply random_mode_frame in Hr. }
  destruct (Ascii.eqb (mode e) "p").
  { intros H. by apply pattern_mode_frame in H. }
  destruct (Ascii.eqb (mode e) "d").
  { intros H. by apply drawing_mode_frame in H. }
  intros [= _ <-]. apply frame_refl.
Qed.

Lemma inital_generation_frame_witness :
  frame 0%nat (mem fresh_3x2) (mem (State (mem gen_3x2) 3)).
Proof.
  apply (inital_generation_frame clicks_3x2 0%nat fresh_3x2
           (Some 0%nat) (State (mem gen_3x2) 3)).
  by vm_compute.
Defined.

(** ** drawing_mode *)

Lemma population_le_length b : 0 ≤ population b ≤ Z.of_nat (length (cells b)).
Proof.
  unfold population. induction (cells b) as [|c cs IH]; [done|].
  cbn [List.filter]. destruct (bool_decide (c = Some true)); cbn [length]; lia.
Qed.

(** X8. In the interactive mode the population counter follows the clicks:
    if it is the number of alive cells of the body when [drawing_mode]
    starts, it is so whenever [drawing_mode] returns, with the body or with
    NULL and wherever the clicks landed, and it lies between 0 and the
    number of slots of the array. *)
Theorem drawing_mode_keeps_population
    (w h : Z) (body : ptr) (queue : list (list event)) (s s' : state)
    (r : option ptr) :
  counted body s → drawing_mode w h body queue s = Some (r, s') →
  ∃ b', mem s' !! body = Some b'
        ∧ pop s' = population b'
        ∧ 0 ≤ pop s' ≤ Z.of_nat (length (cells b')).
Proof.
  intros Hs Hrun.
  destruct (drawing_mode_counted _ _ _ _ _ _ _ Hs Hrun) as (b' & Hb' & Hp).
  exists b'. split; [done|]. split; [done|]. rewrite Hp. apply population_le_length.
Qed.

Lemma drawing_mode_keeps_population_witness :
  ∃ b', mem (State (mem gen_3x2) 3) !! 0%nat = Some b'
        ∧ pop (State (mem gen_3x2) 3) = population b'
        ∧ 0 ≤ pop (State (mem gen_3x2) 3) ≤ Z.of_nat (length (cells b')).
Proof.
  apply (drawing_mode_keeps_population 10 10 0%nat (sdl_events clicks_3x2)
           fresh_3x2 (State (mem gen_3x2) 3) (Some 0%nat)).
  - exists dead_3x2. split; reflexivity.
  - by vm_compute.
Defined.

(** One drain of the queue: it ends the session at the first quit event
    or key [q], after the clicks before it; otherwise it handles every
    click of the queue, and input is still captured afterwards exactly when
    it was before and the queue held no space key. *)
Lemma drain_trace w h body evs :
  ∀ cap s d, drain w h body evs cap s = Some d →
    match d with
    | Stopped s' =>
        ∃ pre e post, evs = pre ++ e :: post ∧ quits e = true
          ∧ Forall (λ e, quits e = false) pre
          ∧ clicks w h body pre s = Some s'
    | Polled cap' s' =>
        Forall (λ e, quits e = false) evs
        ∧ clicks w h body evs s = Some s'
        ∧ (cap' = true → cap = true ∧ Forall (λ e, stops e = false) evs)
        ∧ (cap' = false → cap = false ∨ EvKeySpace ∈ evs)
    end.
Proof.
  induction evs as [|ev evs IH]; intros cap s d.
  - cbn [drain]. intros [= <-]. split; [constructor|]. split; [done|].
    split; [intros ->; by split|intros ->; by left].
  - assert (∀ cap1 s1, quits ev = false → click_event w h body ev s = Some s1 →
              (cap1 = cap ∧ stops ev = false) ∨ (cap1 = false ∧ ev = EvKeySpace) →
              drain w h body evs cap1 s1 = Some d →
              match d with
              | Stopped s' =>
                  ∃ pre e post, ev :: evs = pre ++ e :: post ∧ quits e = true
                    ∧ Forall (λ e, quits e = false) pre
                    ∧ clicks w h body pre s = Some s'
              | Polled cap' s' =>
                  Forall (λ e, quits e = false) (ev :: evs)
                  ∧ clicks w h body (ev :: evs) s = Some s'
                  ∧ (cap' = true →
                     cap = true ∧ Forall (λ e, stops e = false) (ev :: evs))
                  ∧ (cap' = false → cap = false ∨ EvKeySpace ∈ ev :: evs)
              end) as Hrest.
    { intros cap1 s1 Hq Hev Hcap Hd. specialize (IH _ _ _ Hd).
      destruct d as [s'|cap' s'].
      - destruct IH as (pre & e & post & -> & He & Hpre & Hs').
        exists (ev :: pre), e, post. split; [done|]. split; [done|].
        split; [by constructor|]. unfold clicks. cbn [for_each].
        rewrite Hev. cbn [mbind option_bind]. exact Hs'.
      - destruct IH as (Hqs & Hcl & Ht & Hf).
        split; [by constructor|]. split.
        { unfold clicks. cbn [for_each]. rewrite Hev. cbn [mbind option_bind].
          exact Hcl. }
        split.
        + intros Hc'. destruct (Ht Hc') as [-> Hst].
          destruct Hcap as [[<- Hev']|[? _]]; [|done]. split; [done|by constructor].
        + intros Hc'. destruct (Hf Hc') as [->|Hsp].
          * destruct Hcap as [[<- _]|[_ ->]]; [by left|].
            right. by apply elem_of_cons; left.
          * right. by apply elem_of_cons; right. }
    destruct ev; cbn [drain].
    + intros [= <-]. exists [], EvQuit, evs. split; [done|]. split; [done|].
      split; [constructor|done].
    + intros Hd. apply (Hrest false s); [done|done| |done]. by right.
    + intros [= <-]. exists [], EvKeyQ, evs. split; [done|]. split; [done|].
      split; [constructor|done].
    + intros Hd. apply (Hrest cap s); [done|done| |done]. by left.
    + destruct (click w h body mx my s) as [s1|] eqn:Hcl; [|done].
      cbn [mbind option_bind]. intros Hd.
      apply (Hrest cap s1); [done|exact Hcl| |done]. by left.
    + intros Hd. apply (Hrest cap s); [done|done| |done]. by left.
    + intros Hd. apply (Hrest cap s); [done|done| |done]. by left.
Qed.

Lemma clicks_app w h body evs1 evs2 s :
  clicks w h body (evs1 ++ evs2) s
  = s1 ← clicks w h body evs1 s; clicks w h body evs2 s1.
Proof. apply for_each_app. Qed.

Lemma stops_quits e : stops e = false → quits e = false.
Proof. by destruct e. Qed.

Lemma clicks_app_inv w h body evs1 evs2 s s' :
  clicks w h body (evs1 ++ evs2) s = Some s' →
  ∃ s1, clicks w h body evs1 s = Some s1 ∧ clicks w h body evs2 s1 = Some s'.
Proof.
  rewrite clicks_app. destruct (clicks w h body evs1 s) as [s1|]; [|done].
  intros H. by exists s1.
Qed.

(** A queue without quit event and key [q] is drained to its end. *)
Lemma drain_polled w h body evs :
  ∀ cap s s', Forall (λ e, quits e = false) evs →
    clicks w h body evs s = Some s' →
    ∃ cap', drain w h body evs cap s = Some (Polled cap' s')
            ∧ (EvKeySpace ∈ evs → cap' = false)
            ∧ (Forall (λ e, stops e = false) evs → cap' = cap)
            ∧ (cap = false → cap' = false).
Proof.
  induction evs as [|ev evs IH]; intros cap s s' Hq Hcl.
  - injection Hcl as <-. exists cap. split; [done|].
    split; [by intros ?%elem_of_nil|done].
  - apply Forall_cons in Hq as [Hev Hq]. unfold clicks in Hcl. cbn [for_each] in Hcl.
    destruct (click_event w h body ev s) as [s1|] eqn:Hs1; [|done].
    cbn [mbind option_bind] in Hcl.
    assert (∀ cap1, (cap1 = cap ∧ ev ≠ EvKeySpace)
                    ∨ (cap1 = false ∧ ev = EvKeySpace) →
              ∃ cap', drain w h body evs cap1 s1 = Some (Polled cap' s')
                      ∧ (EvKeySpace ∈ ev :: evs → cap' = false)
                      ∧ (Forall (λ e, stops e = false) (ev :: evs) → cap' = cap)
                      ∧ (cap = false → cap' = false)) as Hrest.
    { intros cap1 Hcap. destruct (IH cap1 s1 s' Hq Hcl) as (cap' & Hd & Hsp & Hns & Hf).
      exists cap'. split; [done|]. split; [|split].
      - intros [<-|Hin]%elem_of_cons; [|by apply Hsp].
        destruct Hcap as [[_ ?]|[-> _]]; [done|by apply Hf].
      - intros [Hst Hall]%Forall_cons. destruct Hcap as [[<- _]|[_ ->]]; [|done].
        by apply Hns.
      - intros ->. apply Hf. by destruct Hcap as [[-> _]|[-> _]]. }
    destruct ev; try done; cbn [drain]; cbn [click_event] in Hs1.
    + injection Hs1 as <-. apply Hrest. by right.
    + injection Hs1 as <-. apply Hrest. by left.
    + rewrite Hs1. cbn [mbind option_bind]. apply Hrest. by left.
    + injection Hs1 as <-. apply Hrest. by left.
    + injection Hs1 as <-. apply Hrest. by left.
Qed.

(** A quit event or key [q] ends the session where it stands. *)
Lemma drain_stopped w h body pre e post :
  ∀ cap s s', Forall (λ e, quits e = false) pre → quits e = true →
    clicks w h body pre s = Some s' →
    drain w h body (pre ++ e :: post) cap s = Some (Stopped s').
Proof.
  induction pre as [|ev pre IH]; intros cap s s' Hq He Hcl.
  - injection Hcl as <-. by destruct e.
  - apply Forall_cons in Hq as [Hev Hq]. unfold clicks in Hcl. cbn [for_each] in Hcl.
    destruct (click_event w h body ev s) as [s1|] eqn:Hs1; [|done].
    cbn [mbind option_bind] in Hcl.
    destruct ev; try done; cbn [app drain]; cbn [click_event] in Hs1.
    + injection Hs1 as <-. by apply IH.
    + injection Hs1 as <-. by apply IH.
    + rewrite Hs1. cbn [mbind option_bind]. by apply IH.
    + injection Hs1 as <-. by apply IH.
    + injection Hs1 as <-. by apply IH.
Qed.

(** Rounds without space key, quit event and key [q] are passed over. *)
Lemma drawing_mode_rounds w h body rounds :
  ∀ s s1 queue, Forall (λ e, stops e = false) (concat rounds) →
    clicks w h body (concat rounds) s = Some s1 →
    drawing_mode w h body (rounds ++ queue) s = drawing_mode w h body queue s1.
Proof.
  induction rounds as [|evs rounds IH]; intros s s1 queue Hst Hcl.
  - by injection Hcl as <-.
  - cbn [concat] in Hst, Hcl. apply Forall_app in Hst as [Hevs Hst].
    apply clicks_app_inv in Hcl as (s2 & Hcl2 & Hcl1).
    destruct (drain_polled w h body evs true s s2) as (cap' & Hd & _ & Hns & _);
      [by eapply Forall_impl; [exact Hevs|apply stops_quits]|done|].
    cbn [app drawing_mode]. rewrite Hd, (Hns Hevs). cbn [mbind option_bind].
    by apply IH.
Qed.

(** X9. What [drawing_mode] returns, and after which events; the event
    queue is polled round by round.  [drawing_mode] returns a pointer if
    and only if some round holds a space key while no round up to and
    including that one holds a quit event or the key [q] and no earlier
    round holds a space key; the pointer is the body it was given, and
    every left click delivered up to the end of that round has been
    applied in order, also those behind the space key.  It returns NULL if
    and only if it meets a quit event or key [q] with no such event before
    it and no space key in an earlier round; exactly the left clicks
    delivered before that event have been applied.  Events behind the
    deciding one have no influence.  (In both cases the clicks must have
    been defined.) *)
Theorem drawing_mode_returns
    (w h : Z) (body : ptr) (queue : list (list event)) (s s' : state)
    (r : option ptr) :
  drawing_mode w h body queue s = Some (r, s') ↔
  ∃ rounds evs rest,
    queue = rounds ++ evs :: rest
    ∧ Forall (λ e, stops e = false) (concat rounds)
    ∧ match r with
      | Some p =>
          p = body ∧ EvKeySpace ∈ evs ∧ Forall (λ e, quits e = false) evs
          ∧ clicks w h body (concat rounds ++ evs) s = Some s'
      | None =>
          ∃ pre e post,
            evs = pre ++ e :: post ∧ quits e = true
            ∧ Forall (λ e, quits e = false) pre
            ∧ clicks w h body (concat rounds ++ pre) s = Some s'
      end.
Proof.
  split.
  - revert s. induction queue as [|evs queue IH]; intros s; cbn [drawing_mode]; [done|].
    destruct (drain w h body evs true s) as [d|] eqn:Hd; [|done].
    pose proof (drain_trace _ _ _ _ _ _ _ Hd) as Hout.
    cbn [mbind option_bind]. destruct d as [s1|[|] s1].
    + intros [= <- <-]. exists [], evs, queue. split; [done|]. split; [constructor|].
      exact Hout.
    + intros Hrun. destruct Hout as (Hq & Hcl & Ht & _).
      destruct (Ht eq_refl) as [_ Hst].
      destruct (IH _ Hrun) as (rounds & evs' & rest & -> & Hrounds & Hr).
      exists (evs :: rounds), evs', rest. split; [done|]. cbn [concat].
      split; [by apply Forall_app|].
      destruct r as [p|].
      * destruct Hr as (-> & Hsp & Hq' & Hs'). split; [done|]. split; [done|].
        split; [done|]. rewrite <- app_assoc, clicks_app, Hcl. exact Hs'.
      * destruct Hr as (pre & e & post & -> & He & Hpre & Hs').
        exists pre, e, post. split; [done|]. split; [done|]. split; [done|].
        rewrite <- app_assoc, clicks_app, Hcl. exact Hs'.
    + intros [= <- <-]. destruct Hout as (Hq & Hcl & _ & Hf).
      exists [], evs, queue. split; [done|]. split; [constructor|].
      split; [done|]. destruct (Hf eq_refl) as [?|Hsp]; [done|].
      split; [done|]. split; [done|]. exact Hcl.
  - intros (rounds & evs & rest & -> & Hrounds & Hr). destruct r as [p|].
    + destruct Hr as (-> & Hsp & Hq & Hcl).
      apply clicks_app_inv in Hcl as (s1 & Hcl1 & Hcl2).
      rewrite (drawing_mode_rounds w h body rounds s s1) by done.
      destruct (drain_polled w h body evs true s1 s' Hq Hcl2) as (cap' & Hd & Hcap & _).
      cbn [drawing_mode]. rewrite Hd, (Hcap Hsp). done.
    + destruct Hr as (pre & e & post & -> & He & Hpre & Hcl).
      apply clicks_app_inv in Hcl as (s1 & Hcl1 & Hcl2).
      rewrite (drawing_mode_rounds w h body rounds s s1) by done.
      cbn [drawing_mode].
      by rewrite (drain_stopped w h body pre e post true s1 s' Hpre He Hcl2).
Qed.

Lemma drawing_mode_returns_witness :
  ∃ rounds evs rest,
    sdl_events clicks_3x2 = rounds ++ evs :: rest
    ∧ Forall (λ e, stops e = false) (concat rounds)
    ∧ (0%nat = 0%nat ∧ EvKeySpace ∈ evs ∧ Forall (λ e, quits e = false) evs
       ∧ clicks 10 10 0%nat (concat rounds ++ evs) fresh_3x2
         = Some (State (mem gen_3x2) 3)).
Proof.
  apply (proj1 (drawing_mode_returns 10 10 0%nat (sdl_events clicks_3x2)
                  fresh_3x2 (State (mem gen_3x2) 3) (Some 0%nat))).
  by vm_compute.
Defined.

(** ** body_destory *)

Lemma destroy_slot_index c x y st :
  destroy_slot c x y st = destroy_slot 0 0 (x * c + y) st.
Proof. reflexivity. Qed.

Lemma destroy_slot_step k cs tr c :
  0 ≤ k ≤ INT_MAX → cs !! Z.to_nat k = Some (Some c) →
  destroy_slot 0 0 k (cs, tr)
  = Some (<[Z.to_nat k := None]> cs, tr ++ [FreeCell (Z.to_nat k)]).
Proof.
  intros Hk Hc. unfold destroy_slot. cbn [fst snd]. change (0 * 0 + k) with k.
  rewrite (to_size_t_small k) by lia. by rewrite Hc.
Qed.

(** Freeing the cells of the slots [k .. k + n - 1], each of which holds a
    cell: one call of [free] per slot, in order. *)
Lemma destroy_seq (n : nat) :
  ∀ k cs tr, 0 ≤ k → k + Z.of_nat n ≤ INT_MAX + 1 →
    (∀ i, k ≤ i < k + Z.of_nat n → ∃ c, cs !! Z.to_nat i = Some (Some c)) →
    ∃ cs', for_each (λ i, destroy_slot 0 0 i) (seqZ k (Z.of_nat n)) (cs, tr)
           = Some (cs', tr ++ (FreeCell <$> seq (Z.to_nat k) n)).
Proof.
  induction n as [|n IH]; intros k cs tr Hk Hn Hcs.
  - exists cs. cbn. by rewrite app_nil_r.
  - rewrite seqZ_cons by lia.
    replace (Z.pred (Z.of_nat (S n))) with (Z.of_nat n) by lia.
    cbn [for_each]. destruct (Hcs k ltac:(lia)) as [c Hc].
    rewrite (destroy_slot_step k cs tr c) by (done || lia).
    cbn [mbind option_bind].
    destruct (IH (Z.succ k) (<[Z.to_nat k := None]> cs) (tr ++ [FreeCell (Z.to_nat k)]))
      as (cs' & Hrun); [lia..| |].
    { intros i Hi. destruct (Hcs i ltac:(lia)) as [c' Hc'].
      exists c'. rewrite list_lookup_insert_ne by lia. done. }
    exists cs'. rewrite Hrun.
    replace (Z.to_nat (Z.succ k)) with (S (Z.to_nat k)) by lia.
    by rewrite <- app_assoc.
Qed.

Lemma cells_square_some b i :
  wf_body b = true → rows b = cols b → 0 ≤ i < rows b * cols b →
  ∃ c, cells b !! Z.to_nat i = Some (Some c).
Proof.
  intros Hwf Hsq Hi.
  assert (i ∈ (λ p, idx b p.1 p.2) <$> positions b) as Hin.
  { rewrite (idx_positions_square b Hwf Hsq). apply elem_of_seqZ. lia. }
  apply list_elem_of_fmap in Hin as ([x y] & -> & Hp).
  apply elem_of_positions in Hp.
  destruct (wf_body_cell _ _ _ Hwf Hp) as [c Hc]. exists c.
  unfold cell_at in Hc. cbn [fst snd].
  by destruct (cells b !! Z.to_nat (idx b x y)) as [[c'|]|]; simplify_eq/=.
Qed.

(** On a well-formed square grid the loops of [body_destory] free the
    cells of the slots [0 .. rows * cols - 1] in this order. *)
Lemma body_destory_run (body : ptr) (m : heap) (b : body_t) :
  m !! body = Some b → wf_body b = true → rows b = cols b →
  body_destory body m
  = Some ((FreeCell <$> seq 0 (Z.to_nat (rows b * cols b))) ++ [FreeCells; FreeBody],
          delete body m).
Proof.
  intros Hb Hwf Hsq. destruct (wf_body_dims _ Hwf) as (Hr & Hc & Hrc & Hlen).
  unfold body_destory. rewrite Hb. cbn [mbind option_bind].
  rewrite for_each_nested.
  change (for_each _ _ (cells b, []))
    with (for_each (λ p, (λ i, destroy_slot 0 0 i) (idx b p.1 p.2))
                   (positions b) (cells b, [])).
  rewrite <- (for_each_fmap (λ p, idx b p.1 p.2) (λ i, destroy_slot 0 0 i)).
  rewrite (idx_positions_square b Hwf Hsq).
  destruct (destroy_seq (Z.to_nat (rows b * cols b)) 0 (cells b) [])
    as (cs' & Hcs').
  - lia.
  - rewrite Z2Nat.id by nia. lia.
  - intros i Hi. apply cells_square_some; [done..|]. rewrite Z2Nat.id in Hi by nia. lia.
  - rewrite Z2Nat.id in Hcs' by nia. rewrite Hcs'. done.
Qed.

(** X10. On a well-formed square grid [body_destory] returns after
    [rows * cols + 2] calls of [free]: one for the cell of each slot
    [0 .. rows * cols - 1] of the array, in this order and none twice, then
    one for the array and one for the body.  The body is gone from the
    store and every other body is as it was. *)
Theorem body_destory_square (body : ptr) (m : heap) (b : body_t) :
  m !! body = Some b → wf_body b = true → rows b = cols b →
  ∃ m', body_destory body m
        = Some ((FreeCell <$> seq 0 (length (cells b))) ++ [FreeCells; FreeBody], m')
        ∧ length (cells b) = Z.to_nat (rows b * cols b)
        ∧ m' !! body = None
        ∧ ∀ q, q ≠ body → m' !! q = m !! q.
Proof.
  intros Hb Hwf Hsq. destruct (wf_body_dims _ Hwf) as (_ & _ & _ & Hlen).
  exists (delete body m). rewrite Hlen.
  split; [by apply (body_destory_run body m b)|]. split; [done|].
  split; [apply lookup_delete_eq|]. intros q Hq. by apply lookup_delete_ne.
Qed.

Lemma body_destory_square_witness :
  ∃ m', body_destory 1%nat store_4x4
        = Some ((FreeCell <$> seq 0 (length (cells dead_4x4))) ++ [FreeCells; FreeBody], m')
        ∧ length (cells dead_4x4) = Z.to_nat (rows dead_4x4 * cols dead_4x4)
        ∧ m' !! 1%nat = None
        ∧ ∀ q, q ≠ 1%nat → m' !! q = store_4x4 !! q.
Proof.
  apply (body_destory_square 1%nat store_4x4 dead_4x4); reflexivity.
Defined.

(** X19. Release after allocation on square grids: for every side [n]
    whose square fits [int], [body_init (n, n)] returns a body with
    [n * n] slots, and [body_destory] on that body, wherever it is put in
    the store, returns after freeing the cell of each of the [n * n] slots
    once, then the array and the body; the store is then as it was before
    the body was put there. *)
Theorem body_init_then_destory (n : Z) (m : heap) (p : ptr) :
  0 ≤ n → n * n ≤ INT_MAX → m !! p = None →
  ∃ b, body_init n n = Some b
       ∧ length (cells b) = Z.to_nat (n * n)
       ∧ body_destory p (<[p := b]> m)
         = Some ((FreeCell <$> seq 0 (Z.to_nat (n * n))) ++ [FreeCells; FreeBody], m).
Proof.
  intros Hn Hnn Hp.
  assert (0 ≤ n ≤ INT_MAX) as Hmax by nia.
  destruct (body_init_fresh n n) as (Hinit & Hwf & _); [done..|lia|].
  destruct (wf_body_dims _ Hwf) as (_ & _ & _ & Hlen).
  exists (fresh_body n n). split; [done|]. split; [done|].
  rewrite (body_destory_run p _ (fresh_body n n)); [|apply lookup_insert_eq|done..].
  cbn [rows cols fresh_body]. f_equal. f_equal. by apply delete_insert_id.
Qed.

Lemma body_init_then_destory_witness :
  ∃ b, body_init 3 3 = Some b
       ∧ length (cells b) = Z.to_nat (3 * 3)
       ∧ body_destory 2%nat (<[2%nat := b]> store_4x4)
         = Some ((FreeCell <$> seq 0 (Z.to_nat (3 * 3))) ++ [FreeCells; FreeBody],
                 store_4x4).
Proof. apply (body_init_then_destory 3 store_4x4 2%nat); by vm_compute. Defined.

Lemma for_each_establishes {A S} (I : S → Prop) (f : A → S → option S) l a :
  a ∈ l →
  (∀ s1 s2, f a s1 = Some s2 → I s2) →
  (∀ b s1 s2, I s1 → f b s1 = Some s2 → I s2) →
  ∀ s s', for_each f l s = Some s' → I s'.
Proof.
  intros Ha Hat Hstep. induction l as [|b l IH]; intros s s'.
  - by apply elem_of_nil in Ha.
  - cbn [for_each]. destruct (f b s) as [s1|] eqn:Hf; [|done].
    cbn [mbind option_bind]. apply elem_of_cons in Ha as [<-|Ha].
    + apply (for_each_invariant I f l); [|by eapply Hat].
      intros b s2 s3 _. apply Hstep.
    + by apply IH.
Qed.

(** Once a cell is freed its slot stays dangling, and another visit of the
    slot is a second [free] of the same pointer. *)
Lemma destroy_slot_freed c i p st st' :
  st.1 !! i = Some None → destroy_slot c p.1 p.2 st = Some st' →
  st'.1 !! i = Some None.
Proof.
  intros Hi. unfold destroy_slot.
  destruct (st.1 !! Z.to_nat (to_size_t (p.1 * c + p.2))) as [[v|]|] eqn:Hs; [|done..].
  intros [= <-]. cbn [fst]. rewrite list_lookup_insert_ne; [done|].
  intros E. rewrite E in Hs. congruence.
Qed.

(** X11. On a grid with at least two columns and more rows than columns
    [body_destory] frees a cell twice: positions (0, cols) and (1, 0) name
    the same slot of the array, so the visit of (1, 0) passes to [free] a
    pointer that the visit of (0, cols) has already freed (if nothing
    undefined happened before).  Whatever the cells hold, the call is
    undefined. *)
Theorem body_destory_double_free (body : ptr) (m : heap) (b : body_t) :
  m !! body = Some b → 2 ≤ cols b → cols b < rows b → cols b ≤ INT_MAX →
  body_destory body m = None.
Proof.
  intros Hb Hc Hcr Hmax. unfold body_destory. rewrite Hb. cbn [mbind option_bind].
  assert (range 0 (cols b) = 0 :: range 1 (cols b)) as ->.
  { unfold range. rewrite seqZ_cons by lia. f_equal. f_equal. lia. }
  cbn [for_each].
  destruct (for_each (λ y, destroy_slot (cols b) 0 y) (range 0 (rows b)) (cells b, []))
    as [st1|] eqn:Hfirst; [|done].
  cbn [mbind option_bind].
  assert (st1.1 !! Z.to_nat (cols b) = Some None) as Hfreed.
  { revert Hfirst.
    apply (for_each_establishes
             (λ st : list (option bool) * list free_call,
                st.1 !! Z.to_nat (cols b) = Some None)
             (λ y, destroy_slot (cols b) 0 y) _ (cols b)).
    - apply elem_of_range. lia.
    - intros s1 s2. unfold destroy_slot. change (0 * cols b + cols b) with (cols b).
      rewrite (to_size_t_small (cols b)) by lia.
      destruct (s1.1 !! Z.to_nat (cols b)) as [[v|]|] eqn:Hs; [|done..].
      intros [= <-]. cbn [fst]. apply list_lookup_insert_eq. by apply lookup_lt_Some in Hs.
    - intros y s1 s2 Hs. apply (destroy_slot_freed (cols b) _ (0, y)). done. }
  rewrite for_each_nested.
  rewrite (for_each_fails
             (λ st : list (option bool) * list free_call,
                st.1 !! Z.to_nat (cols b) = Some None) _ _ (1, 0));
    [done| | | |done].
  - apply elem_of_pairs. rewrite !elem_of_range. lia.
  - intros p s1 s2 Hs. by apply destroy_slot_freed.
  - intros s1 Hs. unfold destroy_slot. cbn [fst snd].
    replace (1 * cols b + 0) with (cols b) by lia.
    rewrite (to_size_t_small (cols b)) by lia. by rewrite Hs.
Qed.

Lemma body_destory_double_free_witness : body_destory 1%nat (mem gen_3x2) = None.
Proof.
  apply (body_destory_double_free 1%nat (mem gen_3x2) dead_3x2);
    [reflexivity | by vm_compute..].
Defined.

(** ** draw_generation and the clicks of drawing_mode *)

Lemma draw_position_step w h g body m b x y out :
  m !! body = Some b → wf_body b = true → in_grid b x y = true →
  draw_position w h g body m x y out
  = Some (out ++ draw_cell w h g (alive_at b x y) x y).
Proof.
  intros Hb Hwf Hin. destruct (wf_body_idx _ _ _ Hwf Hin) as [Hi _].
  destruct (wf_body_dims _ Hwf) as (Hr & Hc & _).
  pose proof Hin as Hxy. apply in_grid_spec in Hxy.
  unfold draw_position. rewrite Hb. cbn [mbind option_bind].
  fold (idx b x y). rewrite (to_size_t_small (idx b x y)) by done.
  rewrite (load_alive _ _ _ _ _ Hb Hwf Hin). cbn [mbind option_bind].
  by rewrite (to_int_small x), (to_int_small y) by lia.
Qed.

Lemma draw_loop w h g body m b ps :
  m !! body = Some b → wf_body b = true →
  Forall (λ p, in_grid b p.1 p.2 = true) ps →
  ∀ out, for_each (λ p, draw_position w h g body m p.1 p.2) ps out
         = Some (out ++ (ps ≫= λ p, draw_cell w h g (alive_at b p.1 p.2) p.1 p.2)).
Proof.
  intros Hb Hwf Hps. induction Hps as [|p ps Hp _ IH]; intros out.
  - cbn. by rewrite app_nil_r.
  - cbn [for_each]. rewrite (draw_position_step _ _ _ _ _ b) by done.
    cbn [mbind option_bind]. rewrite IH. cbn. by rewrite <- app_assoc.
Qed.

(** [draw_generation] issues the calls of [draw_cell] for the positions of
    the grid, in the order of the loops. *)
Lemma draw_generation_run w h g body m b :
  m !! body = Some b → wf_body b = true →
  draw_generation w h g body m
  = Some (positions b ≫= λ p, draw_cell w h g (alive_at b p.1 p.2) p.1 p.2).
Proof.
  intros Hb Hwf. unfold draw_generation. rewrite Hb. cbn [mbind option_bind].
  rewrite for_each_nested.
  by rewrite (draw_loop w h g body m b _ Hb Hwf (Forall_positions b)).
Qed.

Lemma quot_cell (w x mx : Z) : 0 < w → 0 ≤ x → w * x ≤ mx < w * x + w → Z.quot mx w = x.
Proof.
  intros Hw Hx Hmx. rewrite Z.quot_div_nonneg by nia.
  symmetry. apply (Z.div_unique mx w x (mx - w * x)); lia.
Qed.



(** ** pattern_mode: lines that are not data lines *)

Lemma skip_delim_no_comma p : has_comma p = false → skip_delim comma p = p.
Proof.
  destruct p as [|c p]; [done|]. cbn [has_comma skip_delim].
  intros [Hc _]%orb_false_iff. by rewrite Hc.
Qed.

Lemma span_token_no_comma p :
  has_comma p = false → span_token comma p = (p, EmptyString).
Proof.
  induction p as [|c p IH]; [done|]. cbn [has_comma span_token].
  intros [Hc Hp]%orb_false_iff. by rewrite Hc, (IH Hp).
Qed.

Lemma chop_no_comma point p :
  has_comma point = false → chop point = Some p → has_comma p = false.
Proof.
  revert p. induction point as [|c s IH]; intros p; [done|].
  cbn [has_comma]. intros [Hc Hs]%orb_false_iff. cbn [chop].
  destruct s as [|c' s']; [by intros [= <-]|].
  destruct (chop (String c' s')) as [q|]; [|done].
  intros [= <-]. cbn [has_comma]. by rewrite Hc, (IH q Hs eq_refl).
Qed.

Lemma strtok_no_comma p :
  has_comma p = false →
  strtok comma p
  = match p with EmptyString => None | _ => Some (p, EmptyString) end.
Proof.
  intros Hp. unfold strtok. rewrite (skip_delim_no_comma p Hp).
  destruct p as [|c p]; [done|]. by rewrite (span_token_no_comma _ Hp).
Qed.

(** X13. A line of the pattern file without a comma (a blank line, a line
    with one number) makes the body of the [while] loop undefined: the
    second [strtok] returns NULL, which goes to [atoi] unchecked (and on an
    empty string the terminator is written before the buffer). *)
Theorem pattern_line_without_comma (body : ptr) (point : string) (s : state) :
  has_comma point = false → pattern_line body point s = None.
Proof.
  intros Hno. unfold pattern_line.
  destruct (mem s !! body) as [bo|]; [|done]. cbn [mbind option_bind].
  destruct (chop point) as [p|] eqn:Hchop; [|done]. cbn [mbind option_bind].
  pose proof (chop_no_comma _ _ Hno Hchop) as Hp.
  rewrite (strtok_no_comma p Hp).
  destruct p as [|c p]; [done|]. cbn [mbind option_bind].
  by destruct (offset_coord (String c p) (cols bo)).
Qed.

Lemma pattern_line_without_comma_witness :
  pattern_line 0%nat (line "7") gen_3x2 = None.
Proof. apply (pattern_line_without_comma 0%nat (line "7") gen_3x2). reflexivity. Defined.

Lemma chop_snoc p c : chop (p ++ String c EmptyString)%string = Some p.
Proof.
  induction p as [|a p IH]; [done|].
  simpl. rewrite IH.
  by destruct (p ++ String c EmptyString)%string eqn:E;
    [destruct p; simplify_eq/=|].
Qed.


(** ** pattern_mode: what it adds *)

Lemma grown_refl body m : grown body m m.
Proof. intros b Hb. exists b. split; [done|]. intros i c Hc. by left. Qed.

Lemma grown_trans body m1 m2 m3 :
  grown body m1 m2 → grown body m2 m3 → grown body m1 m3.
Proof.
  intros H12 H23 b1 Hb1. destruct (H12 _ Hb1) as (b2 & Hb2 & Hc2).
  destruct (H23 _ Hb2) as (b3 & Hb3 & Hc3). exists b3. split; [done|].
  intros i c Hc. destruct (Hc2 _ _ Hc) as [H|H]; [by apply Hc3|].
  right. by destruct (Hc3 _ _ H).
Qed.

Lemma pattern_line_grown body point s s' :
  pattern_line body point s = Some s' →
  pop s' = pop s + 1 ∧ grown body (mem s) (mem s').
Proof.
  unfold pattern_line. destruct (mem s !! body) as [bo|] eqn:Hb; [|done].
  cbn [mbind option_bind]. destruct (chop point) as [p|]; [|done].
  cbn [mbind option_bind]. destruct (strtok comma p) as [[t1 rest]|]; [|done].
  cbn [mbind option_bind]. destruct (offset_coord t1 (cols bo)) as [x|]; [|done].
  cbn [mbind option_bind]. destruct (strtok comma rest) as [[t2 rest2]|]; [|done].
  cbn [mbind option_bind]. destruct (offset_coord t2 (rows bo)) as [y|]; [|done].
  cbn [mbind option_bind].
  destruct (store body _ _ (mem s)) as [m'|] eqn:Hst; [|done].
  intros [= <-]. cbn [pop mem]. split; [done|].
  unfold store in Hst. rewrite Hb in Hst. cbn [mbind option_bind] in Hst.
  destruct (load body _ (mem s)) as [v|]; [|done]. cbn [mbind option_bind] in Hst.
  injection Hst as <-. intros b Hb'. rewrite Hb in Hb'. injection Hb' as <-.
  eexists. split; [apply lookup_insert_eq|]. cbn [cells set_cells].
  intros i c Hc. set (j := Z.to_nat _).
  destruct (decide (i = j)) as [->|Hne].
  - right. apply list_lookup_insert_eq. by apply lookup_lt_Some in Hc.
  - left. by rewrite list_lookup_insert_ne.
Qed.

(** X15. When the pattern file opens and [pattern_mode] returns, it returns
    the body, the population has grown by the number of lines after the
    header (one per line, whether or not the line named a cell that was
    already alive), and in the array every slot either holds what it held
    or holds an alive cell: pattern seeding never kills a cell. *)
Theorem pattern_mode_adds
    (lines : file) (body : ptr) (s s' : state) (r : option ptr) :
  pattern_mode (Some lines) body s = Some (r, s') →
  r = Some body
  ∧ pop s' = pop s + Z.of_nat (length (tail lines))
  ∧ grown body (mem s) (mem s').
Proof.
  unfold pattern_mode.
  destruct (for_each (pattern_line body) (tail lines) s) as [s1|] eqn:Hl; [|done].
  cbn [mbind option_bind]. intros [= <- <-]. split; [done|].
  revert s Hl. induction (tail lines) as [|point ls IH]; intros s; cbn [for_each].
  - intros [= <-]. split; [cbn [length]; lia|apply grown_refl].
  - destruct (pattern_line body point s) as [s2|] eqn:Hstep; [|done].
    cbn [mbind option_bind]. intros Hrest.
    destruct (pattern_line_grown _ _ _ _ Hstep) as [Hp Hg].
    destruct (IH _ Hrest) as [Hp' Hg']. split.
    + rewrite Hp', Hp. cbn [length]. lia.
    + by eapply grown_trans.
Qed.

Lemma pattern_mode_adds_witness :
  Some 0%nat = Some 0%nat
  ∧ pop (State {[0%nat := Body 4 4 (<[10%nat := Some true]> (cells dead_4x4))]} 2)
    = pop (State {[0%nat := dead_4x4]} 0) + Z.of_nat (length (tail pattern_twice))
  ∧ grown 0%nat (mem (State {[0%nat := dead_4x4]} 0))
          (mem (State {[0%nat := Body 4 4 (<[10%nat := Some true]> (cells dead_4x4))]} 2)).
Proof.
  apply (pattern_mode_adds pattern_twice 0%nat (State {[0%nat := dead_4x4]} 0)).
  by vm_compute.
Defined.

(** ** export_body: the file reads back *)

Lemma read_point_export_line x y :
  0 ≤ x ≤ INT_MAX → 0 ≤ y ≤ INT_MAX → read_point (export_line x y) = Some (x, y).
Proof.
  intros Hx Hy.
  destruct (print_int_digits x) as [Hx1 Hx2]; [lia|].
  destruct (print_int_digits y) as [Hy1 Hy2]; [lia|].
  unfold read_point. rewrite export_line_line, chop_line. cbn [mbind option_bind].
  rewrite (proj1 (strtok_digits _ (print_int y) Hx1 Hx2)). cbn [mbind option_bind].
  rewrite (atoi_print_int x Hx). cbn [mbind option_bind].
  rewrite (proj2 (strtok_digits _ EmptyString Hy1 Hy2)). cbn [mbind option_bind].
  by rewrite (atoi_print_int y Hy).
Qed.

(** X16. On a well-formed grid (square or not) [export_body] returns; when
    the file cannot be opened it writes nothing, otherwise the file is the
    header [x,y] followed by one line per alive position of the grid, in
    the order of the loops, and each of these lines, read the way
    [pattern_mode] reads a line (last character dropped, [strtok] on the
    comma, [atoi]), gives back the coordinates of its position.  On a
    square grid the number of data lines is the number of alive cells. *)
Theorem export_body_reads_back (body : ptr) (m : heap) (b : body_t) :
  m !! body = Some b → wf_body b = true →
  export_body false body m = Some None
  ∧ ∃ out,
      export_body true body m = Some (Some (line "x,y" :: out))
      ∧ read_point <$> out = Some <$> alive_positions b
      ∧ (rows b = cols b → Z.of_nat (length out) = population b).
Proof.
  intros Hb Hwf. destruct (wf_body_dims _ Hwf) as (Hr & Hc & _).
  split; [done|]. eexists. split; [by apply export_body_run|]. split.
  - rewrite <- list_fmap_compose. apply list_fmap_ext. intros i [x y] Hp.
    apply list_elem_of_lookup_2, elem_of_alive_positions in Hp.
    assert (in_grid b x y = true) as Hin.
    { destruct (in_grid b x y) eqn:E; [done|].
      by rewrite (alive_at_outside _ _ _ E) in Hp. }
    apply in_grid_spec in Hin. cbn [compose fst snd].
    apply read_point_export_line; lia.
  - intros Hsq. by rewrite length_fmap, (population_square b Hwf Hsq).
Qed.

Lemma export_body_reads_back_witness :
  export_body false 0%nat (mem gen_3x2) = Some None
  ∧ ∃ out,
      export_body true 0%nat (mem gen_3x2) = Some (Some (line "x,y" :: out))
      ∧ read_point <$> out = Some <$> alive_positions prev_3x2
      ∧ (rows prev_3x2 = cols prev_3x2 → Z.of_nat (length out) = population prev_3x2).
Proof.
  apply (export_body_reads_back 0%nat (mem gen_3x2) prev_3x2); reflexivity.
Defined.

(** ** random_mode *)

Lemma alive_writes_draws rand ap b ps :
  ∀ k, alive_writes (random_writes rand ap b k ps)
       = Z.of_nat (length (List.filter (draw rand ap) (seq k (length ps)))).
Proof.
  induction ps as [|p ps IH]; intros k; [done|].
  cbn [random_writes length seq List.filter]. unfold alive_writes in *.
  cbn [foldr snd]. rewrite IH.
  destruct (draw rand ap k); cbn [length Z.b2z]; lia.
Qed.

Lemma length_region b :
  wf_body b = true →
  Z.of_nat (length (region b))
  = (3 * cols b / 4 - cols b / 4) * (3 * rows b / 4 - rows b / 4).
Proof.
  intros Hwf. destruct (wf_body_dims _ Hwf) as (Hr & Hc & _).
  unfold region. rewrite length_pairs. unfold range. rewrite !length_seqZ.
  assert (cols b / 4 ≤ 3 * cols b / 4) by (apply Z.div_le_mono; lia).
  assert (rows b / 4 ≤ 3 * rows b / 4) by (apply Z.div_le_mono; lia).
  rewrite Nat2Z.inj_mul, !Z2Nat.id by lia. done.
Qed.

(** X17. On every well-formed grid [random_mode] returns, after one call of
    [rand()] for each position of the region
    [cols/4 <= x < 3*cols/4], [rows/4 <= y < 3*rows/4], and it adds to the
    population the number of these draws that came out alive: the counter
    counts draws, whatever the cells held before and whether or not two
    positions share a cell. *)
Theorem random_mode_counts_draws
    (rand : nat → Z) (ap : Z) (body : ptr) (m : heap) (p : Z) (k : nat)
    (b : body_t) :
  m !! body = Some b → wf_body b = true →
  ∃ s' n,
    random_mode rand ap body (State m p, k) = Some (s', (k + n)%nat)
    ∧ Z.of_nat n = (3 * cols b / 4 - cols b / 4) * (3 * rows b / 4 - rows b / 4)
    ∧ pop s' = p + Z.of_nat (length (List.filter (draw rand ap) (seq k n)))
    ∧ p ≤ pop s' ≤ p + Z.of_nat n.
Proof.
  intros Hb Hwf. eexists _, (length (region b)).
  split; [by apply random_mode_run|]. cbn [pop].
  split; [by apply length_region|].
  rewrite alive_writes_draws. split; [done|].
  pose proof (filter_length_le (draw rand ap) (seq k (length (region b)))) as Hle.
  rewrite length_seq in Hle. lia.
Qed.

Lemma random_mode_counts_draws_witness :
  ∃ s' n,
    random_mode (λ j, Z.of_nat j * 37) 50 0%nat (State store_4x4 1, 0%nat)
    = Some (s', (0 + n)%nat)
    ∧ Z.of_nat n = (3 * cols corner_4x4 / 4 - cols corner_4x4 / 4)
                   * (3 * rows corner_4x4 / 4 - rows corner_4x4 / 4)
    ∧ pop s' = 1 + Z.of_nat (length (List.filter (draw (λ j, Z.of_nat j * 37) 50) (seq 0 n)))
    ∧ 1 ≤ pop s' ≤ 1 + Z.of_nat n.
Proof.
  apply (random_mode_counts_draws (λ j, Z.of_nat j * 37) 50 0%nat store_4x4 1 0%nat
           corner_4x4); reflexivity.
Defined.

(** ** inital_generation in random mode *)

Lemma population_assign_all b ws :
  ∀ cs, NoDup ws.*1 → (∀ w, w ∈ ws → cs !! w.1 = Some (Some false)) →
    population (set_cells b (assign_all cs ws))
    = population (set_cells b cs) + alive_writes ws.
Proof.
  induction ws as [|w ws IH]; intros cs Hnd Hcs.
  - unfold alive_writes. cbn [assign_all foldl foldr]. lia.
  - change (assign_all cs (w :: ws)) with (assign_all (<[w.1 := Some w.2]> cs) ws).
    rewrite fmap_cons in Hnd. apply NoDup_cons in Hnd as [Hw Hnd].
    rewrite IH; [|done|].
    + pose proof (population_insert (set_cells b cs) w.1 false w.2) as Hins.
      cbn [cells set_cells] in Hins.
      change (set_cells (set_cells b cs) ?l) with (set_cells b l) in Hins.
      rewrite Hins by (apply Hcs, elem_of_cons; by left).
      unfold alive_writes. cbn [foldr Z.b2z]. lia.
    + intros w' Hw'. rewrite list_lookup_insert_ne.
      * apply Hcs, elem_of_cons. by right.
      * intros Heq. apply Hw. rewrite Heq. apply list_elem_of_fmap. by exists w'.
Qed.

Lemma random_writes_slots rand ap b ps :
  ∀ k, (random_writes rand ap b k ps).*1 = (λ p, Z.to_nat (idx b p.1 p.2)) <$> ps.
Proof.
  induction ps as [|p ps IH]; intros k; [done|].
  cbn [random_writes]. rewrite !fmap_cons. cbn [fst]. by rewrite IH.
Qed.

Lemma population_all_dead b :
  wf_body b = true → rows b = cols b → all_dead b = true → population b = 0.
Proof.
  intros Hwf Hsq Hdead. unfold population. rewrite (cells_square b Hwf Hsq).
  rewrite (population_states (λ p, alive_at b p.1 p.2)).
  induction (positions b) as [|p ps IH]; [done|].
  cbn [foldr]. by rewrite IH, (all_dead_at _ _ _ Hdead).
Qed.

(** X18. Random seeding of a fresh square grid through [inital_generation]
    (mode [r], draws of [rand()] non-negative): the call returns the body,
    the body is still well formed, the population reported is the number of
    its alive cells, at most the size of the seeded region, and every cell
    outside the region is dead. *)
Theorem inital_generation_random_square
    (e : seed_env) (body : ptr) (s : state) (b : body_t) :
  mode e = "r"%char → (∀ j, 0 ≤ rand_values e j) →
  mem s !! body = Some b → wf_body b = true → rows b = cols b →
  all_dead b = true →
  ∃ s' b',
    inital_generation e body s = Some (Some body, s')
    ∧ mem s' !! body = Some b'
    ∧ wf_body b' = true
    ∧ pop s' = population b'
    ∧ 0 ≤ pop s' ≤ (3 * cols b / 4 - cols b / 4) * (3 * rows b / 4 - rows b / 4)
    ∧ (∀ x y, in_region b x y = false → alive_at b' x y = false).
Proof.
  intros Hmode Hrand Hb Hwf Hsq Hdead.
  destruct (wf_body_dims _ Hwf) as (Hr & Hc & Hrc & Hlen).
  destruct (random_mode_square (rand_values e) (cell_alive_prob e) body (mem s) 0%nat b
              Hb Hwf Hsq Hdead Hrand) as (sk & b' & Hrun & Hb' & Hout & _).
  rewrite (random_mode_run _ _ _ _ _ _ b Hb Hwf) in Hrun. injection Hrun as <-.
  cbn [fst mem] in Hb'. rewrite lookup_insert_eq in Hb'. injection Hb' as <-.
  set (ws := random_writes (rand_values e) (cell_alive_prob e) b 0 (region b)) in *.
  eexists _, _. split.
  { unfold inital_generation. rewrite Hmode. cbn [Ascii.eqb Bool.eqb].
    rewrite (random_mode_run _ _ _ _ _ _ b Hb Hwf). cbn [mbind option_bind fst].
    reflexivity. }
  cbn [mem pop]. split; [apply lookup_insert_eq|]. fold ws.
  split; [|split; [|split; [|done]]].
  - apply wf_body_intro; cbn [rows cols cells set_cells]; try done.
    + by rewrite length_assign_all.
    + intros x y Hin.
      destruct (holds_cells_assign_all b (cells b) ws (wf_holds_cells b b Hwf eq_refl eq_refl)
                  x y Hin) as [v Hv].
      exists v. unfold cell_at, idx. cbn [rows cols cells set_cells].
      fold (idx b x y). by rewrite Hv.
  - rewrite population_assign_all.
    + rewrite set_cells_cells, (population_all_dead b Hwf Hsq Hdead). done.
    + unfold ws. rewrite random_writes_slots.
      apply NoDup_fmap_2_strong; [|apply NoDup_pairs; apply NoDup_seqZ].
      intros [x y] [x' y'] Hp Hp' Heq. cbn [fst snd] in Heq.
      apply elem_of_region in Hp, Hp'.
      pose proof (in_region_in_grid _ _ _ Hwf Hp) as Hin.
      pose proof (in_region_in_grid _ _ _ Hwf Hp') as Hin'.
      destruct (wf_body_idx _ _ _ Hwf Hin) as [Hi _].
      destruct (wf_body_idx _ _ _ Hwf Hin') as [Hi' _].
      destruct (idx_inj_square b x y x' y') as [-> ->]; [done|done|done|lia|done].
    + intros w Hw. apply elem_of_random_writes in Hw as (j & x & y & Hj & ->).
      apply list_elem_of_lookup_2, elem_of_region in Hj.
      pose proof (in_region_in_grid _ _ _ Hwf Hj) as Hin.
      destruct (wf_body_cell _ _ _ Hwf Hin) as [c Hcell].
      pose proof (alive_at_cell _ _ _ _ Hin Hcell) as Ha.
      rewrite (all_dead_at _ _ _ Hdead) in Ha. subst c.
      unfold cell_at in Hcell. cbn [fst].
      by destruct (cells b !! Z.to_nat (idx b x y)) as [[c|]|]; simplify_eq/=.
  - unfold ws. rewrite alive_writes_draws, <- length_region by done.
    pose proof (filter_length_le (draw (rand_values e) (cell_alive_prob e))
                  (seq 0 (length (region b)))) as Hle.
    rewrite length_seq in Hle. lia.
Qed.

Lemma inital_generation_random_square_witness :
  ∃ s' b',
    inital_generation random_50 1%nat (State store_4x4 7) = Some (Some 1%nat, s')
    ∧ mem s' !! 1%nat = Some b'
    ∧ wf_body b' = true
    ∧ pop s' = population b'
    ∧ 0 ≤ pop s' ≤ (3 * cols dead_4x4 / 4 - cols dead_4x4 / 4)
                   * (3 * rows dead_4x4 / 4 - rows dead_4x4 / 4)
    ∧ (∀ x y, in_region dead_4x4 x y = false → alive_at b' x y = false).
Proof.
  apply (inital_generation_random_square random_50 1%nat (State store_4x4 7) dead_4x4);
    [reflexivity | intros j; cbn; lia | reflexivity..].
Defined.
